(** * Library Genesis extension: book ranking, file naming and download

    A shallow embedding of [src/extensions/library-genesis/src/utils/books.ts]
    and the properties its specification states about it.

    Conventions of the embedding.
    - JavaScript strings are [string]s, the bytes of their UTF-8
      encoding: an ASCII character is one byte, and no byte of another
      character is an ASCII one.  [String.prototype.toLowerCase] and
      [String.prototype.trim] depend on Unicode, and the order
      [Array.prototype.sort] leaves depends on the engine when the comparator
      is not a consistent one: the three are the operations of an
      [Engine], known by what the language says of them, and the
      development holds for every engine.  The two [replace] calls act on
      ASCII classes and are functions.
    - The numbers of the weight tables are [Z]; the index of the probe loop
      is [N]: they are small integers, on which the arithmetic of doubles is
      exact.  What a comparator returns is a [Number], which can be [NaN].
    - The two weight tables are object literals: a table has the own
      properties the code assigns, numbers, and the members every object
      inherits, which [in] sees and which are not numbers.
    - An array is a location in a store of arrays; a function that sorts
      in place takes the store and gives the new store back.
    - A download is a computation that emits events (notifications, the
      fetch, the write) and returns, throws, or is still probing for a file
      name when its fuel is spent; [await] is sequencing.
    - What the module imports from files that are not among the sources is
      a parameter ([languages], [join]) or is modelled from the
      specification and marked so. *)

From Stdlib Require Import ZArith Ascii String List Permutation Sorted Lia.
From stdpp Require Import base decidable option list gmap strings pretty.

Open Scope string_scope.
Open Scope list_scope.
Open Scope Z_scope.

(** The characters of a string, in order. *)
Definition chars (s : string) : list ascii := list_ascii_of_string s.

(** ** The JavaScript built-ins the module calls *)

Module JS.

(** *** On ASCII strings *)

(** A string of ASCII characters only. *)
Definition isAscii (s : string) : bool :=
  forallb (λ c, (nat_of_ascii c <? 128)%nat) (chars s).

(** [toLowerCase] on an ASCII string: the letters [A] to [Z] *)
Definition lower (c : ascii) : ascii :=
  let n := nat_of_ascii c in
  if ((65 <=? n) && (n <=? 90))%nat then ascii_of_nat (n + 32) else c.

Fixpoint asciiToLowerCase (s : string) : string :=
  match s with
  | EmptyString => EmptyString
  | String c s' => String (lower c) (asciiToLowerCase s')
  end.

(** [trim] on an ASCII string: tab, line feed, vertical tab, form feed,
    carriage return and space at both ends *)
Fixpoint trimStart (s : string) : string :=
  match s with
  | EmptyString => EmptyString
  | String c s' => if Ascii.is_space c then trimStart s' else s
  end.

Definition trimEnd (s : string) : string :=
  String.rev (trimStart (String.rev s)).

Definition asciiTrim (s : string) : string := trimEnd (trimStart s).

(** *** On every string *)

(** [String.prototype.split] on a separator of one ASCII character: the
    pieces between the separators, empty ones included. *)
Fixpoint split_go (sep : ascii) (cur : string) (s : string) : list string :=
  match s with
  | EmptyString => [String.rev cur]
  | String c s' =>
      if Ascii.eqb c sep then String.rev cur :: split_go sep EmptyString s'
      else split_go sep (String c cur) s'
  end.

Definition split (sep : ascii) (s : string) : list string :=
  split_go sep EmptyString s.

(** [s.replace(re, "")] for a regular expression [re] with the [g] flag
    that matches runs of the characters of one class: every character of
    the class is deleted. *)
Fixpoint deleteAll (cls : ascii -> bool) (s : string) : string :=
  match s with
  | EmptyString => EmptyString
  | String c s' =>
      if cls c then deleteAll cls s' else String c (deleteAll cls s')
  end.

(** [\w] without the underscore: [A-Za-z0-9] *)
Definition alphanumeric (c : ascii) : bool :=
  let n := nat_of_ascii c in
  (((48 <=? n) && (n <=? 57)) || ((65 <=? n) && (n <=? 90))
   || ((97 <=? n) && (n <=? 122)))%nat.

(** the class [[\W_]] *)
Definition nonWordOrUnderscore (c : ascii) : bool := negb (alphanumeric c).

(** the class of [/\//] *)
Definition slash (c : ascii) : bool := Ascii.eqb c "/".

(** [Array.prototype.forEach((x, i) => ...)], the callback's effect on the
    state it closes over written as a state transformer. *)
Fixpoint forEach_from {A S : Type} (f : A -> nat -> S -> S)
    (i : nat) (l : list A) (s : S) : S :=
  match l with
  | [] => s
  | x :: l' => forEach_from f (Datatypes.S i) l' (f x i s)
  end.

Definition forEach {A S : Type} (f : A -> nat -> S -> S) (l : list A) (s : S) : S :=
  forEach_from f 0 l s.

(** [Array.prototype.reduce(f, init)] *)
Definition reduce {A B : Type} (f : B -> A -> B) (init : B) (l : list A) : B :=
  foldl f init l.

(** *** Object literals used as tables of numbers *)

(** The properties an object literal inherits from [Object.prototype]:
    functions, and the accessor [__proto__]. *)
Definition inheritedNames : list string :=
  ["constructor"; "__defineGetter__"; "__defineSetter__"; "hasOwnProperty";
   "__lookupGetter__"; "__lookupSetter__"; "isPrototypeOf";
   "propertyIsEnumerable"; "toString"; "valueOf"; "__proto__";
   "toLocaleString"].

(** What the code reads from a table and adds up: a number, an inherited
    member, or the string that [+] makes of a member. *)
Inductive Value : Type :=
| number (n : Z)
| member (name : string)
| text.

(** [o[p] = n] on a table [o] of own properties: the setter of [__proto__]
    ignores a number, every other key becomes an own property. *)
Definition assign (p : string) (n : Z) (o : gmap string Z) : gmap string Z :=
  if decide (p = "__proto__") then o else <[p := n]> o.

(** [p in o]: own and inherited properties *)
Definition has (o : gmap string Z) (p : string) : bool :=
  bool_decide (is_Some (o !! p)) || bool_decide (p ∈ inheritedNames).

(** [o[p]] for a [p] that is [in o]: the own property shadows the
    inherited one. *)
Definition get (o : gmap string Z) (p : string) : Value :=
  match o !! p with
  | Some n => number n
  | None => member p
  end.

(** [p + c]: addition of two numbers, concatenation of strings
    otherwise. *)
Definition plus (p c : Value) : Value :=
  match p, c with
  | number x, number y => number (x + y)
  | _, _ => text
  end.

(** *** Numbers and sorting *)

(** What a comparator returns: an integer, or [NaN]. *)
Inductive Number : Type :=
| finite (n : Z)
| NaN.

(** [v > 0]; the sort reads [NaN] as [+0]. *)
Definition positive (v : Number) : bool :=
  match v with
  | finite n => 0 <? n
  | NaN => false
  end.

(** A stable sort: insertion from the right, [a] moved behind [b] only when
    [compareFn(a, b) > 0]. *)
Fixpoint sort_insert {A : Type} (compareFn : A -> A -> Number) (a : A) (l : list A) : list A :=
  match l with
  | [] => [a]
  | b :: l' =>
      if positive (compareFn a b) then b :: sort_insert compareFn a l'
      else a :: b :: l'
  end.

Fixpoint insertionSort {A : Type} (compareFn : A -> A -> Number) (l : list A) : list A :=
  match l with
  | [] => []
  | a :: l' => sort_insert compareFn a (insertionSort compareFn l')
  end.

(** [x - y]: a member and the string made of one are not numbers. *)
Definition minus (x y : Value) : Number :=
  match x, y with
  | number a, number b => finite (a - b)
  | _, _ => NaN
  end.

(** The comparator [(a, b) => key(b) - key(a)] of numeric keys. *)
Definition byKey {A : Type} (key : A -> Z) (a b : A) : Number :=
  finite (key b - key a).

(** *** The engine

    [toLowerCase] and [trim] are the ASCII functions on ASCII strings;
    lower case neither makes nor removes a slash; a trimmed string has
    nothing left to trim.  [sort] always leaves a permutation; when the
    comparator is a consistent comparison function for the elements, which
    [(a, b) => key(b) - key(a)] is when the keys are numbers, the language
    requires the one stable sorted order; otherwise the order is the
    engine's own. *)
Class Engine : Type := {
  toLowerCase : string -> string;
  trim : string -> string;
  sort : forall {A : Type}, (A -> A -> Number) -> list A -> list A;
  toLowerCase_ascii :
    forall s, isAscii s = true -> toLowerCase s = asciiToLowerCase s;
  toLowerCase_slash :
    forall s, In "/"%char (chars (toLowerCase s)) <-> In "/"%char (chars s);
  trim_ascii :
    forall s, isAscii s = true -> trim s = asciiTrim s;
  trim_idempotent :
    forall s, trim (trim s) = trim s;
  sort_permutation :
    forall (A : Type) (compareFn : A -> A -> Number) (l : list A),
      Permutation l (sort compareFn l);
  sort_consistent :
    forall (A : Type) (key : A -> Z) (compareFn : A -> A -> Number) (l : list A),
      (forall a b, In a l -> In b l -> compareFn a b = finite (key b - key a)) ->
      sort compareFn l = insertionSort (byKey key) l
}.

End JS.
(** ** Data model *)

(** Modelled from the spec: the [BookEntry] type of [@/types] is not among
    the sources.  Its attributes are the ones the specification lists; all
    are strings, an absent year being the empty string, which is the string
    the guard [year && ...] of [fileNameFromBookEntry] tests for. *)
Record BookEntry : Type := mkBook {
  title : string;
  author : string;
  year : string;
  language : string;
  extension : string;
  downloadUrl : string
}.

Global Instance BookEntry_eq_dec : EqDecision BookEntry.
Proof. solve_decision. Defined.

(** An entry of the [languages] table of [./constants]. *)
Record Language : Type := mkLanguage { name : string }.

(** Modelled from the spec: [parseLowerCaseArray] of [./common] is not among
    the sources.  It gives the ordered sequence of the non-empty lowercase
    tokens of a string, split on the delimiter (a comma, as in the
    specification's preference string ["French, English"]) and trimmed; an
    empty or blank string has no token. *)
Definition parseLowerCaseArray `{!JS.Engine} (s : string) : list string :=
  filter (λ t, t ≠ "") (map JS.trim (JS.split "," (JS.toLowerCase s))).

(** ** Weight tables *)

(** The loop [list.forEach((p, i) => { weights[p] = list.length - i })] on
    the object literal [{}]. *)
Definition assignWeights (list : list string) : gmap string Z :=
  JS.forEach (λ p i (weights : gmap string Z),
                JS.assign p (Z.of_nat (length list) - Z.of_nat i) weights) list ∅.

(** [t in weights ? weights[t] : 0] *)
Definition weightOf (weights : gmap string Z) (t : string) : JS.Value :=
  if JS.has weights t then JS.get weights t else JS.number 0.

Definition preferredFormatList `{!JS.Engine} (preferredFormats : string) : list string :=
  parseLowerCaseArray preferredFormats.

Definition formatWeights `{!JS.Engine} (preferredFormats : string) : gmap string Z :=
  assignWeights (preferredFormatList preferredFormats).

Section Languages.

Context {engine : JS.Engine}.

(** The [languages] table of [./constants], which is not among the
    sources: the development holds for every table. *)
Variable languages : list Language.

Definition supportedNames : list string :=
  map (λ l, JS.toLowerCase (name l)) languages.

Definition filteredPreferredLanguageList (preferredLanguages : string) : list string :=
  filter (λ pl, pl ∈ supportedNames) (parseLowerCaseArray preferredLanguages).

Definition languageWeights (preferredLanguages : string) : gmap string Z :=
  assignWeights (filteredPreferredLanguageList preferredLanguages).

End Languages.

(** ** The two rankers *)

(** The store of arrays: a reference to an array of books is a location. *)
Abbreviation ref := positive (only parsing).
Abbreviation store := (gmap positive (list BookEntry)) (only parsing).

(** [parseLowerCaseArray(b.language).map((l) => (l in w ? w[l] : 0))
      .reduce((p, c) => p + c, 0)] *)
Definition languageScore `{!JS.Engine} (weights : gmap string Z) (b : BookEntry) : JS.Value :=
  JS.reduce JS.plus (JS.number 0)
    (map (weightOf weights) (parseLowerCaseArray (language b))).

(** [b.extension.replace(/[\W_]+/g, "")], then the lookup *)
Definition cleanExtension (b : BookEntry) : string :=
  JS.deleteAll JS.nonWordOrUnderscore (extension b).

Definition formatScore (weights : gmap string Z) (b : BookEntry) : JS.Value :=
  weightOf weights (cleanExtension b).

Section Rankers.

Context {engine : JS.Engine}.
Variable languages : list Language.

(** the comparator of [sortBooksByPreferredLanguages] *)
Definition languageCompare (languageWeights : gmap string Z) (a b : BookEntry) : JS.Number :=
  let weightA := languageScore languageWeights a in
  let weightB := languageScore languageWeights b in
  JS.minus weightB weightA.

Definition sortBooksByPreferredLanguages
    (books : ref) (preferredLanguages : string) (σ : store) : store * ref :=
  let languageWeights := languageWeights languages preferredLanguages in
  let σ' := alter (JS.sort (languageCompare languageWeights)) books σ in
  (σ', books).

(** the comparator of [sortBooksByPreferredFileFormats] *)
Definition formatCompare (formatWeights : gmap string Z) (a b : BookEntry) : JS.Number :=
  let weightA := formatScore formatWeights a in
  let weightB := formatScore formatWeights b in
  JS.minus weightB weightA.

Definition sortBooksByPreferredFileFormats
    (books : ref) (preferredFormats : string) (σ : store) : store * ref :=
  let formatWeights := formatWeights preferredFormats in
  let σ' := alter (JS.sort (formatCompare formatWeights)) books σ in
  (σ', books).

End Rankers.

(** ** File names *)

(** [`${author} - ${title}${year && " (" + year + ")"}`.replace(/\//g, "")]:
    [year && e] is [year] itself when [year] is the empty string. *)
Definition fileNameFromBookEntry (b : BookEntry) : string :=
  JS.deleteAll JS.slash
    (author b +:+ " - " +:+ title b
       +:+ (if decide (year b = "") then year b else " (" +:+ year b +:+ ")")).

Definition fileNameWithExtensionFromBookEntry `{!JS.Engine} (book : BookEntry) : string :=
  let fileName := fileNameFromBookEntry book in
  fileName +:+ "." +:+ JS.toLowerCase (extension book).

Section BuildFileName.

(** [join] of [node:path], and the state of the file system as
    [fse.existsSync] observes it. *)
Variable join : string -> string -> string.
Variable existsSync : string -> bool.

(** The [while (true)] loop, from [index]: [fuel] bounds the number of
    probes, [None] is a loop still running when the fuel is spent. *)
Fixpoint buildFileName_loop (fuel : nat) (path name extension : string)
    (index : N) : option string :=
  match fuel with
  | O => None
  | S fuel' =>
      let newName := name +:+ "-" +:+ pretty index +:+ "." +:+ extension in
      let newPath := join path newName in
      if negb (existsSync newPath) then Some newName
      else buildFileName_loop fuel' path name extension (index + 1)%N
  end.

Definition buildFileName (fuel : nat) (path name extension : string) : option string :=
  let baseName := name +:+ "." +:+ extension in
  let filePath := join path baseName in
  let directoryExists := existsSync filePath in
  if negb directoryExists then Some baseName
  else buildFileName_loop fuel path name extension 2%N.

(** The probe order in the specification's words: ["<name>.<ext>"], then
    ["<name>-2.<ext>"], ["<name>-3.<ext>"], ... *)
Definition probeOrder (name extension : string) (k : nat) : string :=
  match k with
  | O => name +:+ "." +:+ extension
  | S _ => name +:+ "-" +:+ pretty (N.of_nat (k + 1)) +:+ "." +:+ extension
  end.

(** The [k]-th candidate is unused in the directory [path]. *)
Definition unused (path name extension : string) (k : nat) : Prop :=
  existsSync (join path (probeOrder name extension k)) = false.

(** The [k]-th candidate is the first unused one. *)
Definition firstUnused (path name extension : string) (k : nat) : Prop :=
  unused path name extension k /\
  forall j, (j < k)%nat -> existsSync (join path (probeOrder name extension j)) = true.

End BuildFileName.

(** ** Downloads *)

(** What a [catch] clause can receive: a [FetchError] of [node-fetch] with
    its [code], or any other exception. *)
Inductive Error : Type :=
| FetchError (code : string) (message : string)
| OtherError (message : string).

(** What the operations do to the outside world, in order. *)
Inductive Event : Type :=
| FolderDialog (platform : string)
| Progress (title : string) (cancelable : bool)
| Fetch (url : string) (rejectUnauthorized : bool)
| WriteFile (path : string) (data : string)
| Success (message : string) (openBook showInFinder : string)
| Failure (title : string) (error : Error).

(** How a run ends: with a value, with an exception that leaves the
    function, or not within the fuel given to the probe loop. *)
Inductive Outcome (A : Type) : Type :=
| Returns (a : A)
| Throws (e : Error)
| Running.
Arguments Returns {A} a.
Arguments Throws {A} e.
Arguments Running {A}.

(** A computation: the events it emits and how it ends. *)
Definition Prog (A : Type) : Type := list Event * Outcome A.

Definition ret {A : Type} (a : A) : Prog A := ([], Returns a).
Definition throw {A : Type} (e : Error) : Prog A := ([], Throws e).
Definition emit (ev : Event) : Prog unit := ([ev], Returns tt).

Definition bind {A B : Type} (m : Prog A) (k : A -> Prog B) : Prog B :=
  match m with
  | (t, Returns a) => let '(t', o) := k a in (t ++ t', o)
  | (t, Throws e) => (t, Throws e)
  | (t, Running) => (t, Running)
  end.

Definition tryCatch {A : Type} (m : Prog A) (handler : Error -> Prog A) : Prog A :=
  match m with
  | (t, Throws e) => let '(t', o) := handler e in (t ++ t', o)
  | _ => m
  end.

Declare Scope prog_scope.
Delimit Scope prog_scope with prog.
Notation "x <- m ;; k" := (bind m (λ x, k))
  (at level 100, m at next level, right associativity) : prog_scope.
Notation "m ;; k" := (bind m (λ _, k))
  (at level 100, right associativity) : prog_scope.

(** A result of an outside operation: an exception or a value. *)
Definition lift {A : Type} (r : Error + A) : Prog A :=
  match r with
  | inl e => throw e
  | inr a => ret a
  end.

(** The body of a response, as [res.arrayBuffer()] resolves or rejects. *)
Record Response : Type := mkResponse { arrayBuffer : Error + string }.

(** The outside world of one download: preferences, platform, folder
    dialogs, network and file system.  [existsSync] is the directory as the
    probes of [buildFileName] observe it, which all run before the fetch
    is awaited; [writeFileSync] is the later write, given the path and the
    data: what the directory holds by then is not observed by the code and
    is not part of the world. *)
Record World : Type := mkWorld {
  downloadPath : string;
  allowIgnoreHTTPSErrors : bool;
  existsSync : string -> bool;
  platform : string;
  runAppleScript : Error + string;
  execAsync : Error + string;
  fetch : string -> bool -> Error + Response;
  writeFileSync : string -> string -> Error + unit
}.

Definition certificateExpiredMessage : string :=
  "The certificate has expired. Try with a different download gateway or enable 'Ignore HTTPS Errors' in your settings.".

(** [err instanceof FetchError && err.code === "CERT_HAS_EXPIRED"] *)
Definition certHasExpired (err : Error) : bool :=
  match err with
  | FetchError code _ => bool_decide (code = "CERT_HAS_EXPIRED")
  | OtherError _ => false
  end.

Section Download.

Context {engine : JS.Engine}.
Variable join : string -> string -> string.
Variable w : World.
(** the bound on the probes of [buildFileName] *)
Variable fuel : nat.

(** Modelled from the spec: [showActionToast] and [showFailureToast] of
    [./toast] are not among the sources.  The notification sink accepts a
    task start with a title and a cancellation control, and a terminal
    outcome, a success or a failure with its cause; [showToast] of the
    host is the same sink. *)
Definition showActionToast (title : string) (cancelable : bool) : Prog unit :=
  emit (Progress title cancelable).

Definition showFailureToast (title : string) (error : Error) : Prog unit :=
  emit (Failure title error).

Definition showToast (message openBook showInFinder : string) : Prog unit :=
  emit (Success message openBook showInFinder).

Definition fetchImageArrayBuffer (url : string) : Prog string :=
  let rejectUnauthorized := negb (allowIgnoreHTTPSErrors w) in
  (emit (Fetch url rejectUnauthorized) ;;
   res <- lift (fetch w url rejectUnauthorized) ;;
   buffer <- lift (arrayBuffer res) ;;
   ret buffer)%prog.

Definition buildFileNameProg (path name extension : string) : Prog string :=
  match buildFileName join (existsSync w) fuel path name extension with
  | Some fileName => ret fileName
  | None => ([], Running)
  end.

Definition write (filePath data : string) : Prog unit :=
  (emit (WriteFile filePath data) ;; lift (writeFileSync w filePath data))%prog.

(** the [catch (err)] clause both operations share *)
Definition onError (err : Error) : Prog unit :=
  if certHasExpired err
  then showFailureToast "Download Failed" (OtherError certificateExpiredMessage)
  else showFailureToast "Download Failed" err.

(** the [try] block of [downloadBookToDefaultDirectory] *)
Definition defaultDirectoryBody (url name extension : string) : Prog unit :=
  (fileName <- buildFileNameProg (downloadPath w) name extension ;;
   let filePath := downloadPath w +:+ "/" +:+ fileName in
   arrayBuffer <- fetchImageArrayBuffer url ;;
   write filePath arrayBuffer ;;
   showToast ("Saved to " +:+ downloadPath w) filePath filePath)%prog.

Definition downloadBookToDefaultDirectory (url : string) (book : BookEntry) : Prog unit :=
  let name := fileNameFromBookEntry book in
  let extension := JS.toLowerCase (extension book) in
  (showActionToast "Downloading..." true ;;
   tryCatch (defaultDirectoryBody url name extension) onError)%prog.

(** [null] is [None]; the dialogs' own failures are caught inside. *)
Definition chooseDownloadFolder : Prog (option string) :=
  let currentPlatform := platform w in
  if decide (currentPlatform = "darwin") then
    (emit (FolderDialog currentPlatform) ;;
     tryCatch (out <- lift (runAppleScript w) ;; ret (Some (JS.trim out)))
              (λ _, ret None))%prog
  else if decide (currentPlatform = "win32") then
    (emit (FolderDialog currentPlatform) ;;
     tryCatch (stdout <- lift (execAsync w) ;;
               ret (if decide (JS.trim stdout = "") then None
                    else Some (JS.trim stdout)))
              (λ _, ret None))%prog
  else ret None.

(** [!outputFolder]: [null] and the empty string *)
Definition noFolder (outputFolder : option string) : bool :=
  match outputFolder with
  | None => true
  | Some p => bool_decide (p = "")
  end.

(** the [try] block of [downloadBookToLocation] *)
Definition locationBody (url outputFolder name extension : string) : Prog unit :=
  (fileName <- buildFileNameProg outputFolder name extension ;;
   let filePath := join outputFolder fileName in
   arrayBuffer <- fetchImageArrayBuffer url ;;
   write filePath arrayBuffer ;;
   showToast ("Saved to " +:+ fileName) filePath filePath)%prog.

Definition downloadBookToLocation (url : string) (book : BookEntry) : Prog unit :=
  let name := fileNameFromBookEntry book in
  let extension := JS.toLowerCase (extension book) in
  (outputFolder <- chooseDownloadFolder ;;
   if noFolder outputFolder then ret tt
   else
     let outputFolder := default "" outputFolder in
     showActionToast "Downloading..." true ;;
     tryCatch (locationBody url outputFolder name extension) onError)%prog.

End Download.

(** The events of a trace that are notifications of failure, fetches and
    file writes. *)
Definition isFailure (ev : Event) : bool :=
  match ev with Failure _ _ => true | _ => false end.
Definition isFetch (ev : Event) : bool :=
  match ev with Fetch _ _ => true | _ => false end.
Definition isWrite (ev : Event) : bool :=
  match ev with WriteFile _ _ => true | _ => false end.
Definition isProgress (ev : Event) : bool :=
  match ev with Progress _ _ => true | _ => false end.
Definition isSuccess (ev : Event) : bool :=
  match ev with Success _ _ _ => true | _ => false end.

(** ** Vocabulary of the properties *)

Global Instance Value_eq_dec : EqDecision JS.Value.
Proof. solve_decision. Defined.

Global Instance Number_eq_dec : EqDecision JS.Number.
Proof. solve_decision. Defined.

(** A token that is not the name of a member every table inherits. *)
Definition plain (t : string) : Prop := t ∉ JS.inheritedNames.

Global Instance plain_dec (t : string) : Decision (plain t).
Proof. unfold plain. apply _. Defined.

(** A book whose language tokens are all plain, and a book whose cleaned
    extension is. *)
Definition plainLanguages `{!JS.Engine} (b : BookEntry) : Prop :=
  Forall plain (parseLowerCaseArray (language b)).

Definition plainExtension (b : BookEntry) : Prop := plain (cleanExtension b).

Global Instance plainLanguages_dec `{!JS.Engine} (b : BookEntry) :
  Decision (plainLanguages b).
Proof. unfold plainLanguages. apply _. Defined.

Global Instance plainExtension_dec (b : BookEntry) : Decision (plainExtension b).
Proof. unfold plainExtension. apply _. Defined.

(** The weight of a token in the specification's words: the number the
    table holds for it, 0 for a token it does not hold. *)
Definition weight (weights : gmap string Z) (t : string) : Z :=
  default 0 (weights !! t).

(** The sum of the weights of the language tokens of a book, and the weight
    of its cleaned extension. *)
Definition languageSum `{!JS.Engine} (weights : gmap string Z) (b : BookEntry) : Z :=
  foldr Z.add 0 (map (weight weights) (parseLowerCaseArray (language b))).

Definition formatWeight (weights : gmap string Z) (b : BookEntry) : Z :=
  weight weights (cleanExtension b).

(** The tokens of an ASCII string, by the ASCII functions. *)
Definition asciiTokens (s : string) : list string :=
  filter (λ t, t ≠ "") (map JS.asciiTrim (JS.split "," (JS.asciiToLowerCase s))).

(** The keys of an array never increase from left to right. *)
Definition descending {A : Type} (key : A -> Z) (l : list A) : Prop :=
  StronglySorted (λ x y, key y <= key x) l.

(** Some occurrence of [a] comes before some occurrence of [b]. *)
Definition before {A : Type} (a b : A) (l : list A) : Prop :=
  exists l1 l2 l3, l = l1 ++ a :: l2 ++ b :: l3.

(** The characters that separate the segments of a path on the platforms
    the module has branches for: the slash, and on [win32] the backslash
    too. *)
Definition pathSeparator (c : ascii) : bool :=
  Ascii.eqb c "/" || Ascii.eqb c "\".

(** The error a failure notification carries for the exception [e]. *)
Definition reported (e : Error) : Error :=
  if certHasExpired e then OtherError certificateExpiredMessage else e.

(** The events of one kind in a trace. *)
Definition failures (t : list Event) : list Event := List.filter isFailure t.
Definition fetches (t : list Event) : list Event := List.filter isFetch t.

(** An event other than the opening of a folder dialog. *)
Definition beyondDialog (ev : Event) : bool :=
  match ev with FolderDialog _ => false | _ => true end.

(** ** Sample data *)

Module Sample.

Definition languages : list Language :=
  [mkLanguage "English"; mkLanguage "French"; mkLanguage "German"].

Definition english : BookEntry :=
  mkBook "Book" "Doe, J" "" "English" "pdf" "https://example.org/1".
Definition bilingual : BookEntry :=
  mkBook "Livre" "Roe, R" "2001" "French, English" ".pdf" "https://example.org/2".
Definition german : BookEntry :=
  mkBook "Buch" "Poe, P" "1999" "German" "epub" "https://example.org/3".

Definition shelf : list BookEntry := [english; bilingual; german].

(** a store with the shelf at location 1 *)
Definition σ : gmap positive (list BookEntry) := {[ 1%positive := shelf ]}.

Definition join (path name : string) : string := path +:+ "/" +:+ name.

(** a directory that holds the first two candidates for Doe's book *)
Definition onDisk (p : string) : bool :=
  bool_decide (p ∈ ["/downloads/Doe, J - Book.pdf"; "/downloads/Doe, J - Book-2.pdf"]).

(** a platform without folder dialog, and a gateway whose certificate has
    expired *)
Definition world : World :=
  {| downloadPath := "/downloads";
     allowIgnoreHTTPSErrors := false;
     existsSync := onDisk;
     platform := "linux";
     runAppleScript := inl (OtherError "User canceled.");
     execAsync := inr "";
     fetch := λ _ _, inl (FetchError "CERT_HAS_EXPIRED" "certificate has expired");
     writeFileSync := λ _ _, inr tt |}.

(** a Mac whose user picks a folder, and a gateway that answers *)
Definition mac : World :=
  {| downloadPath := "/downloads";
     allowIgnoreHTTPSErrors := true;
     existsSync := λ _, false;
     platform := "darwin";
     runAppleScript := inr "/Users/doe/Books ";
     execAsync := inr "";
     fetch := λ _ _, inr (mkResponse (inr "%PDF-1.7"));
     writeFileSync := λ _ _, inr tt |}.

End Sample.

(** ** Vocabulary and sample data of the further properties *)

(** A notification that ends a download: a success or a failure. *)
Definition isTerminal (ev : Event) : bool := isSuccess ev || isFailure ev.

(** What both [try] blocks do once the file name is known: the fetch, the
    write of what was fetched to [filePath], and the success notification
    with its [message]. *)
Definition transfer (w : World) (url filePath message : string) : Prog unit :=
  match fetch w url (negb (allowIgnoreHTTPSErrors w)) with
  | inl e => ([Fetch url (negb (allowIgnoreHTTPSErrors w))], Throws e)
  | inr res =>
      match arrayBuffer res with
      | inl e => ([Fetch url (negb (allowIgnoreHTTPSErrors w))], Throws e)
      | inr data =>
          match writeFileSync w filePath data with
          | inl e =>
              ([Fetch url (negb (allowIgnoreHTTPSErrors w));
                WriteFile filePath data], Throws e)
          | inr _ =>
              ([Fetch url (negb (allowIgnoreHTTPSErrors w));
                WriteFile filePath data;
                Success message filePath filePath], Returns tt)
          end
      end
  end.

Module Cases.

(** a download directory that holds Doe's book twice, and a gateway that
    answers *)
Definition library : World :=
  {| downloadPath := "/downloads";
     allowIgnoreHTTPSErrors := false;
     existsSync := Sample.onDisk;
     platform := "linux";
     runAppleScript := inl (OtherError "no osascript");
     execAsync := inl (OtherError "no powershell");
     fetch := λ _ _, inr (mkResponse (inr "%PDF-1.7"));
     writeFileSync := λ _ _, inr tt |}.

(** a Windows machine whose user picks a folder *)
Definition windows : World :=
  {| downloadPath := "C:\Downloads";
     allowIgnoreHTTPSErrors := false;
     existsSync := λ _, false;
     platform := "win32";
     runAppleScript := inl (OtherError "no osascript");
     execAsync := inr " D:\Books  ";
     fetch := λ _ _, inr (mkResponse (inr "%PDF-1.7"));
     writeFileSync := λ _ _, inr tt |}.

(** books whose language or extension is the name of a member that every
    object inherits *)
Definition inherited : BookEntry :=
  mkBook "Object" "Moe, M" "" "constructor" "constructor" "https://example.org/4".
Definition polyglot : BookEntry :=
  mkBook "Objet" "Noe, N" "" "English, constructor" "toString" "https://example.org/5".

(** a directory in which every name is taken *)
Definition full : World :=
  {| downloadPath := "/downloads";
     allowIgnoreHTTPSErrors := false;
     existsSync := λ _, true;
     platform := "linux";
     runAppleScript := inl (OtherError "no osascript");
     execAsync := inl (OtherError "no powershell");
     fetch := λ _ _, inr (mkResponse (inr "%PDF-1.7"));
     writeFileSync := λ _ _, inr tt |}.

End Cases.


(** * Properties *)

(** A decidable proposition on closed terms, settled by evaluation. *)
Ltac by_computation :=
  match goal with
  | |- ?P => apply (bool_decide_unpack P); vm_compute; exact I
  end.

(** ** Strings: reversal, trimming and lower case of ASCII strings *)

Lemma string_append_nil_r (s : string) : s +:+ "" = s.
Proof. induction s as [|c s IH]; [done|]. unfold String.append; fold String.append. by rewrite IH. Qed.

Lemma string_append_assoc (s1 s2 s3 : string) : (s1 +:+ s2) +:+ s3 = s1 +:+ (s2 +:+ s3).
Proof.
  induction s1 as [|c s1 IH]; [done|].
  unfold String.append; fold String.append. by rewrite IH.
Qed.

Lemma string_rev_app (s1 s2 : string) :
  String.rev_app s1 s2 = String.rev s1 +:+ s2.
Proof.
  unfold String.rev. revert s2. induction s1 as [|c s1 IH]; intros s2; [done|].
  simpl. rewrite (IH (String c s2)), (IH (String c "")), string_append_assoc. done.
Qed.

Lemma string_rev_cons (c : ascii) (s : string) :
  String.rev (String c s) = String.rev s +:+ String c "".
Proof. unfold String.rev at 1. simpl. apply string_rev_app. Qed.

Lemma string_rev_append (s1 s2 : string) :
  String.rev (s1 +:+ s2) = String.rev s2 +:+ String.rev s1.
Proof.
  induction s1 as [|c s1 IH]; [by rewrite string_append_nil_r|].
  change (String c s1 +:+ s2) with (String c (s1 +:+ s2)).
  by rewrite !string_rev_cons, IH, string_append_assoc.
Qed.

Lemma string_rev_involutive (s : string) : String.rev (String.rev s) = s.
Proof.
  induction s as [|c s IH]; [done|].
  by rewrite string_rev_cons, string_rev_append, IH.
Qed.

Lemma trimStart_length (s : string) :
  (String.length (JS.trimStart s) <= String.length s)%nat.
Proof.
  induction s as [|c s IH]; simpl; [lia|].
  destruct (Ascii.is_space c); simpl; lia.
Qed.

Lemma trimStart_idempotent (s : string) :
  JS.trimStart (JS.trimStart s) = JS.trimStart s.
Proof.
  induction s as [|c s IH]; simpl; [done|].
  destruct (Ascii.is_space c) eqn:Hc; [done|]. simpl. by rewrite Hc.
Qed.

Lemma trimStart_snoc (s : string) (c : ascii) :
  Ascii.is_space c = false ->
  JS.trimStart (s +:+ String c "") = JS.trimStart s +:+ String c "".
Proof.
  intros Hc. induction s as [|d s IH].
  - simpl. unfold String.append. simpl. by rewrite Hc.
  - change (String d s +:+ String c "") with (String d (s +:+ String c "")).
    simpl. by destruct (Ascii.is_space d).
Qed.

Lemma trimEnd_idempotent (s : string) :
  JS.trimEnd (JS.trimEnd s) = JS.trimEnd s.
Proof.
  unfold JS.trimEnd. by rewrite string_rev_involutive, trimStart_idempotent.
Qed.

Lemma trimStart_trimEnd (s : string) :
  JS.trimStart s = s -> JS.trimStart (JS.trimEnd s) = JS.trimEnd s.
Proof.
  destruct s as [|c s]; [done|]. intros Hs.
  assert (Ascii.is_space c = false) as Hc.
  { destruct (Ascii.is_space c) eqn:Hc; [|done]. simpl in Hs. rewrite Hc in Hs.
    pose proof (trimStart_length s) as Hlen. rewrite Hs in Hlen. simpl in Hlen. lia. }
  unfold JS.trimEnd. rewrite string_rev_cons, trimStart_snoc, string_rev_append by done.
  change (String.rev (String c "")) with (String c "").
  change (String c "" +:+ String.rev (JS.trimStart (String.rev s)))
    with (String c (String.rev (JS.trimStart (String.rev s)))).
  simpl. by rewrite Hc.
Qed.

Lemma asciiTrim_idempotent (s : string) :
  JS.asciiTrim (JS.asciiTrim s) = JS.asciiTrim s.
Proof.
  unfold JS.asciiTrim.
  rewrite (trimStart_trimEnd (JS.trimStart s)) by apply trimStart_idempotent.
  apply trimEnd_idempotent.
Qed.

Lemma chars_append (s1 s2 : string) : chars (s1 +:+ s2) = chars s1 ++ chars s2.
Proof.
  unfold chars. induction s1 as [|c s1 IH]; [done|].
  change (String c s1 +:+ s2) with (String c (s1 +:+ s2)). simpl. by rewrite IH.
Qed.

Lemma chars_asciiToLowerCase (s : string) :
  chars (JS.asciiToLowerCase s) = map JS.lower (chars s).
Proof. unfold chars. induction s as [|c s IH]; simpl; [done|]. by rewrite IH. Qed.

Lemma lower_slash (c : ascii) : JS.lower c = "/"%char <-> c = "/"%char.
Proof.
  destruct c as [[] [] [] [] [] [] [] []]; vm_compute; split; congruence.
Qed.

Lemma asciiToLowerCase_slash (s : string) :
  In "/"%char (chars (JS.asciiToLowerCase s)) <-> In "/"%char (chars s).
Proof.
  rewrite chars_asciiToLowerCase, in_map_iff. split.
  - intros (c & Hc & Hin). apply (proj1 (lower_slash c)) in Hc. by subst.
  - intros Hin. by exists "/"%char.
Qed.

(** ** ASCII strings *)

Lemma isAscii_cons (c : ascii) (s : string) :
  JS.isAscii (String c s) = (nat_of_ascii c <? 128)%nat && JS.isAscii s.
Proof. reflexivity. Qed.

Lemma isAscii_append (s1 s2 : string) :
  JS.isAscii (s1 +:+ s2) = JS.isAscii s1 && JS.isAscii s2.
Proof. unfold JS.isAscii. by rewrite chars_append, forallb_app. Qed.

Lemma isAscii_rev (s : string) : JS.isAscii (String.rev s) = JS.isAscii s.
Proof.
  induction s as [|c s IH]; [done|].
  rewrite string_rev_cons, isAscii_append, IH, !isAscii_cons.
  change (JS.isAscii "") with true. by destruct (JS.isAscii s), (_ <? _)%nat.
Qed.

Lemma lower_ascii (c : ascii) :
  (nat_of_ascii c <? 128)%nat = true -> (nat_of_ascii (JS.lower c) <? 128)%nat = true.
Proof. destruct c as [[] [] [] [] [] [] [] []]; vm_compute; congruence. Qed.

Lemma asciiToLowerCase_isAscii (s : string) :
  JS.isAscii s = true -> JS.isAscii (JS.asciiToLowerCase s) = true.
Proof.
  induction s as [|c s IH]; [done|]. simpl. rewrite !isAscii_cons.
  intros [Hc Hs]%andb_true_iff. by rewrite (lower_ascii c Hc), IH.
Qed.

(** The pieces of an ASCII string are ASCII strings. *)
Lemma split_go_isAscii (sep : ascii) (cur s : string) :
  JS.isAscii cur = true -> JS.isAscii s = true ->
  Forall (λ p, JS.isAscii p = true) (JS.split_go sep cur s).
Proof.
  revert cur. induction s as [|c s IH]; intros cur Hcur Hs; simpl.
  - constructor; [by rewrite isAscii_rev|constructor].
  - rewrite isAscii_cons in Hs. apply andb_true_iff in Hs as [Hc Hs].
    destruct (Ascii.eqb c sep).
    + constructor; [by rewrite isAscii_rev|by apply IH].
    + apply IH; [|done]. by rewrite isAscii_cons, Hc, Hcur.
Qed.

(** ** Insertion sort *)

Section InsertionSort.

Context {A : Type}.
Variable compareFn : A -> A -> JS.Number.

Lemma sort_insert_perm (a : A) (l : list A) :
  Permutation (a :: l) (JS.sort_insert compareFn a l).
Proof.
  induction l as [|b l IH]; simpl; [done|].
  destruct (JS.positive (compareFn a b)); [|done].
  rewrite perm_swap. by apply perm_skip.
Qed.

Lemma insertionSort_perm (l : list A) : Permutation l (JS.insertionSort compareFn l).
Proof.
  induction l as [|a l IH]; simpl; [done|].
  rewrite <- sort_insert_perm. by apply perm_skip.
Qed.

(** The sort looks at the comparator on the elements of the array only. *)
Lemma sort_insert_ext (compareFn' : A -> A -> JS.Number) (a : A) (l : list A) :
  (forall b, In b l -> compareFn a b = compareFn' a b) ->
  JS.sort_insert compareFn a l = JS.sort_insert compareFn' a l.
Proof.
  induction l as [|b l IH]; intros Hext; simpl; [done|].
  rewrite (Hext b) by (by left). rewrite IH; [done|].
  intros b' Hb'. apply Hext. by right.
Qed.

End InsertionSort.

Lemma insertionSort_ext {A : Type} (compareFn compareFn' : A -> A -> JS.Number)
    (l : list A) :
  (forall a b, In a l -> In b l -> compareFn a b = compareFn' a b) ->
  JS.insertionSort compareFn l = JS.insertionSort compareFn' l.
Proof.
  induction l as [|a l IH]; intros Hext; simpl; [done|].
  rewrite IH by (intros x y Hx Hy; apply Hext; by right).
  apply sort_insert_ext. intros b Hb. apply Hext; [by left|].
  right. eapply Permutation_in; [|exact Hb].
  symmetry. apply insertionSort_perm.
Qed.

(** ** An engine: the ASCII functions and the insertion sort *)

Lemma asciiEngine_sort_consistent (A : Type) (key : A -> Z)
    (compareFn : A -> A -> JS.Number) (l : list A) :
  (forall a b, In a l -> In b l -> compareFn a b = JS.finite (key b - key a)) ->
  JS.insertionSort compareFn l = JS.insertionSort (JS.byKey key) l.
Proof. intros Hext. by apply insertionSort_ext. Qed.

(** The engine of the sample runs.  On ASCII strings and on arrays whose
    comparator is consistent every engine agrees with it. *)
Definition asciiEngine : JS.Engine :=
  {| JS.toLowerCase := JS.asciiToLowerCase;
     JS.trim := JS.asciiTrim;
     JS.sort := @JS.insertionSort;
     JS.toLowerCase_ascii := λ s _, eq_refl;
     JS.toLowerCase_slash := asciiToLowerCase_slash;
     JS.trim_ascii := λ s _, eq_refl;
     JS.trim_idempotent := asciiTrim_idempotent;
     JS.sort_permutation := @insertionSort_perm;
     JS.sort_consistent := asciiEngine_sort_consistent |}.

(** ** Tokens of ASCII strings *)

Lemma parseLowerCaseArray_ascii `{!JS.Engine} (s : string) :
  JS.isAscii s = true -> parseLowerCaseArray s = asciiTokens s.
Proof.
  intros Hs. unfold parseLowerCaseArray, asciiTokens.
  rewrite JS.toLowerCase_ascii by done. f_equal.
  pose proof (split_go_isAscii "," "" (JS.asciiToLowerCase s) eq_refl
                (asciiToLowerCase_isAscii s Hs)) as Hpieces.
  fold (JS.split "," (JS.asciiToLowerCase s)) in Hpieces.
  induction Hpieces as [|p ps Hp _ IH]; simpl; [done|].
  by rewrite JS.trim_ascii, IH.
Qed.

(** ** The sort with a comparator that compares keys *)

Section SortByKey.

Context {A : Type}.
Variable key : A -> Z.

(** [(a, b) => key(b) - key(a)]: descending keys *)
Local Abbreviation compareFn := (JS.byKey key).
Local Abbreviation sorted := (JS.insertionSort (JS.byKey key)).

Lemma positive_byKey (a b : A) : JS.positive (compareFn a b) = (key a <? key b).
Proof.
  unfold JS.byKey. simpl.
  destruct (Z.ltb_spec 0 (key b - key a)), (Z.ltb_spec (key a) (key b)); lia.
Qed.

(** An element is moved only behind elements of a strictly greater key, so
    the elements of one key keep their order. *)
Lemma sort_insert_filter (w : Z) (a : A) (l : list A) :
  filter (λ x, key x = w) (JS.sort_insert compareFn a l)
  = filter (λ x, key x = w) (a :: l).
Proof.
  induction l as [|b l IH]; cbn [JS.sort_insert]; [done|].
  rewrite positive_byKey. destruct (key a <? key b) eqn:Hab; [|done].
  apply Z.ltb_lt in Hab.
  rewrite (filter_cons _ b), IH, !(filter_cons _ a), (filter_cons _ b).
  repeat case_decide; try done; lia.
Qed.

Lemma sort_filter (w : Z) (l : list A) :
  filter (λ x, key x = w) (sorted l) = filter (λ x, key x = w) l.
Proof.
  induction l as [|a l IH]; simpl; [done|].
  rewrite sort_insert_filter, !(filter_cons _ a), IH. done.
Qed.

Local Abbreviation descending := (descending key).

Lemma sort_insert_descending (a : A) (l : list A) :
  descending l -> descending (JS.sort_insert compareFn a l).
Proof.
  unfold descending. induction 1 as [|b l Hl IH Hb]; cbn [JS.sort_insert].
  - repeat constructor.
  - rewrite positive_byKey. destruct (key a <? key b) eqn:Hab.
    + apply Z.ltb_lt in Hab.
      constructor; [done|].
      rewrite <- sort_insert_perm. constructor; [lia|done].
    + apply Z.ltb_ge in Hab.
      constructor; [by constructor|].
      constructor; [lia|].
      eapply Forall_impl; [exact Hb|]. simpl. intros; lia.
Qed.

Lemma sort_descending (l : list A) : descending (sorted l).
Proof.
  induction l as [|a l IH]; simpl; [constructor|].
  by apply sort_insert_descending.
Qed.

(** An array that is already in descending order is left as it is. *)
Lemma sort_insert_descending_id (a : A) (l : list A) :
  descending (a :: l) -> JS.sort_insert compareFn a l = a :: l.
Proof.
  intros Hd. apply StronglySorted_inv in Hd as [_ Ha].
  destruct l as [|b l]; cbn [JS.sort_insert]; [done|].
  apply Forall_cons in Ha as [Hb _].
  rewrite positive_byKey.
  assert ((key a <? key b) = false) as ->; [|done].
  apply Z.ltb_ge. lia.
Qed.

Lemma sort_descending_id (l : list A) : descending l -> sorted l = l.
Proof.
  induction l as [|a l IH]; intros Hd; simpl; [done|].
  rewrite IH by (by apply StronglySorted_inv in Hd as [? _]).
  by apply sort_insert_descending_id.
Qed.

Lemma constant_descending (c : Z) (l : list A) :
  (forall x, (x ∈ l) -> key x = c) -> descending l.
Proof.
  induction l as [|a l IH]; intros Hc; [constructor|].
  constructor.
  - apply IH. intros x Hx. apply Hc. by right.
  - apply Forall_forall. intros x Hx.
    rewrite (Hc a), (Hc x); [lia|by right|left].
Qed.

(** Two arrays in descending order whose elements of each key are the
    same, in the same order, are equal: the result of a stable sort does
    not depend on the algorithm. *)
Lemma descending_filter_eq (l1 l2 : list A) :
  descending l1 -> descending l2 ->
  (forall w, filter (λ x, key x = w) l1 = filter (λ x, key x = w) l2) ->
  l1 = l2.
Proof.
  revert l2. induction l1 as [|a l1 IH]; intros l2 H1 H2 Hf.
  - destruct l2 as [|b l2]; [done|].
    specialize (Hf (key b)). rewrite filter_nil, filter_cons_True in Hf by done.
    done.
  - destruct l2 as [|b l2].
    { specialize (Hf (key a)). rewrite filter_nil, filter_cons_True in Hf by done.
      done. }
    apply StronglySorted_inv in H1 as [H1 Ha].
    apply StronglySorted_inv in H2 as [H2 Hb].
    rewrite Forall_forall in Ha. rewrite Forall_forall in Hb.
    assert (key a = key b) as Hab.
    { apply Z.le_antisymm.
      - assert (a ∈ b :: l2) as Hin.
        { assert (a ∈ filter (λ x, key x = key a) (b :: l2)) as Hin.
          { rewrite <- Hf, filter_cons_True by done. left. }
          by apply list_elem_of_filter in Hin as [_ ?]. }
        apply elem_of_cons in Hin as [->|Hin]; [lia|].
        by apply Hb.
      - assert (b ∈ a :: l1) as Hin.
        { assert (b ∈ filter (λ x, key x = key b) (a :: l1)) as Hin.
          { rewrite Hf, filter_cons_True by done. left. }
          by apply list_elem_of_filter in Hin as [_ ?]. }
        apply elem_of_cons in Hin as [->|Hin]; [lia|].
        by apply Ha. }
    pose proof (Hf (key a)) as Hhead.
    rewrite filter_cons_True, (filter_cons_True _ b) in Hhead by done.
    injection Hhead as -> _. f_equal.
    apply IH; [done..|]. intros w. specialize (Hf w).
    rewrite !(filter_cons _ b) in Hf. case_decide; congruence.
Qed.

Lemma sort_unique (l l' : list A) :
  descending l' ->
  (forall w, filter (λ x, key x = w) l' = filter (λ x, key x = w) l) ->
  l' = sorted l.
Proof.
  intros Hd Hf. apply descending_filter_eq; [done|apply sort_descending|].
  intros w. by rewrite Hf, sort_filter.
Qed.

End SortByKey.

(** ** Relative order of two elements *)

Section Before.

Context {A : Type}.
Variable P : A -> Prop.
Context `{!forall x, Decision (P x)}.

Lemma filter_split (l : list A) (f1 f2 : list A) (x : A) :
  filter P l = f1 ++ x :: f2 ->
  exists l1 l2, l = l1 ++ x :: l2 /\ filter P l1 = f1 /\ filter P l2 = f2.
Proof.
  revert f1. induction l as [|y l IH]; intros f1 Hf.
  - rewrite filter_nil in Hf. by destruct f1.
  - rewrite filter_cons in Hf. case_decide as Hy.
    + destruct f1 as [|z f1]; simpl in Hf; simplify_eq.
      * exists [], l. by rewrite filter_nil.
      * destruct (IH f1) as (l1 & l2 & -> & <- & <-); [done|].
        exists (z :: l1), l2. by rewrite filter_cons_True.
    + destruct (IH f1 Hf) as (l1 & l2 & -> & <- & <-).
      exists (y :: l1), l2. by rewrite filter_cons_False.
Qed.

Lemma before_filter (a b : A) (l : list A) :
  P a -> P b -> (before a b l <-> before a b (filter P l)).
Proof.
  intros Ha Hb. split.
  - intros (l1 & l2 & l3 & ->).
    exists (filter P l1), (filter P l2), (filter P l3).
    rewrite filter_app, filter_cons_True, filter_app, filter_cons_True; done.
  - intros (f1 & f2 & f3 & Hf).
    apply filter_split in Hf as (l1 & l' & -> & _ & Hf).
    apply filter_split in Hf as (l2 & l3 & -> & _ & _).
    by exists l1, l2, l3.
Qed.

End Before.

Lemma before_elem_of {A : Type} (a b : A) (l : list A) :
  before a b l -> a ∈ l /\ b ∈ l.
Proof.
  intros (l1 & l2 & l3 & ->). split.
  - apply elem_of_app. right. left.
  - apply elem_of_app. right. right. apply elem_of_app. right. left.
Qed.

(** A stable sort by key keeps the relative order of the elements of equal
    keys. *)
Lemma sort_before {A : Type} (key : A -> Z) (a b : A) (l : list A) :
  key a = key b ->
  (before a b l <-> before a b (JS.insertionSort (JS.byKey key) l)).
Proof.
  intros Hab.
  rewrite (before_filter (λ x, key x = key a) a b l) by done.
  rewrite (before_filter (λ x, key x = key a) a b (JS.insertionSort _ l)) by done.
  by rewrite (sort_filter key).
Qed.

Lemma descending_before {A : Type} (key : A -> Z) (x y : A) (l : list A) :
  descending key l -> before x y l -> key y <= key x.
Proof.
  intros Hd (l1 & l2 & l3 & ->). unfold descending in Hd.
  induction l1 as [|z l1 IH]; simpl in Hd;
    [|by apply IH; apply StronglySorted_inv in Hd as [? _]].
  apply StronglySorted_inv in Hd as [_ Hx].
  rewrite Forall_forall in Hx. apply Hx.
  apply elem_of_app. right. left.
Qed.

Lemma descending_filter {A : Type} (key : A -> Z) (P : A -> Prop)
    `{!forall x, Decision (P x)} (l : list A) :
  descending key l -> descending key (filter P l).
Proof.
  unfold descending. induction 1 as [|a l Hl IH Ha]; [constructor|].
  rewrite filter_cons. case_decide; [|done].
  constructor; [done|].
  rewrite Forall_forall in Ha. apply Forall_forall.
  intros x [_ Hx]%list_elem_of_filter. by apply Ha.
Qed.

Lemma filter_none {A : Type} (P : A -> Prop) `{!forall x, Decision (P x)}
    (l : list A) :
  (forall x, (x ∈ l) -> ~ P x) -> filter P l = [].
Proof.
  induction l as [|x l IH]; intros Hn; [done|].
  rewrite filter_cons_False by (apply Hn; left).
  apply IH. intros y Hy. apply Hn. by right.
Qed.

(** ** Weight tables *)

Section WeightTable.

Variable n : Z.

Let assign (p : string) (i : nat) (weights : gmap string Z) : gmap string Z :=
  JS.assign p (n - Z.of_nat i) weights.

Lemma forEach_from_absent (l : list string) (i : nat) (W : gmap string Z) (t : string) :
  t ∉ l -> JS.forEach_from assign i l W !! t = W !! t.
Proof.
  revert i W. induction l as [|p l IH]; intros i W Hnot; simpl; [done|].
  apply not_elem_of_cons in Hnot as [Hne Hnot].
  rewrite IH by done. unfold assign, JS.assign.
  destruct (decide (p = "__proto__")); [done|]. by rewrite lookup_insert_ne.
Qed.

(** The loop gives no weight to [__proto__]. *)
Lemma forEach_from_proto (l : list string) (i : nat) (W : gmap string Z) :
  JS.forEach_from assign i l W !! "__proto__" = W !! "__proto__".
Proof.
  revert i W. induction l as [|p l IH]; intros i W; simpl; [done|].
  rewrite IH. unfold assign, JS.assign.
  destruct (decide (p = "__proto__")); [done|]. by rewrite lookup_insert_ne.
Qed.

(** The last assignment to a token is the one that stays. *)
Lemma forEach_from_last (l : list string) (i k : nat) (W : gmap string Z) (t : string) :
  l !! k = Some t ->
  t ∉ drop (S k) l ->
  t ≠ "__proto__" ->
  JS.forEach_from assign i l W !! t = Some (n - Z.of_nat (i + k)).
Proof.
  revert i k W. induction l as [|p l IH]; intros i k W Hk Hlast Hp; [done|].
  destruct k as [|k]; simpl in *.
  - simplify_eq. rewrite drop_0 in Hlast. rewrite forEach_from_absent by done.
    unfold assign, JS.assign. rewrite decide_False by done.
    rewrite lookup_insert_eq. do 2 f_equal. lia.
  - rewrite (IH (S i) k) by done. do 2 f_equal. lia.
Qed.

End WeightTable.

(** A token of a list has a last position. *)
Lemma last_position (l : list string) (t : string) :
  t ∈ l -> exists i, l !! i = Some t /\ t ∉ drop (S i) l.
Proof.
  intros Hin. induction l as [|p l IH]; [by apply elem_of_nil in Hin|].
  destruct (decide (t ∈ l)) as [Hl|Hl].
  - destruct (IH Hl) as (i & Hi & Hd). by exists (S i).
  - apply elem_of_cons in Hin as [->|?]; [|done]. by exists 0%nat.
Qed.

Lemma NoDup_last_position (l : list string) (i : nat) (t : string) :
  NoDup l -> l !! i = Some t -> t ∉ drop (S i) l.
Proof.
  intros Hnd Hi [j Hj]%list_elem_of_lookup. rewrite lookup_drop in Hj.
  pose proof (NoDup_lookup l i (S i + j) t Hnd Hi Hj). lia.
Qed.

Lemma lookup_assignWeights_last (l : list string) (i : nat) (t : string) :
  l !! i = Some t -> t ∉ drop (S i) l -> t ≠ "__proto__" ->
  assignWeights l !! t = Some (Z.of_nat (length l) - Z.of_nat i).
Proof.
  intros Hi Hlast Hp. unfold assignWeights, JS.forEach.
  by rewrite (forEach_from_last _ l 0 i ∅ t Hi Hlast Hp).
Qed.

Lemma lookup_assignWeights_absent (l : list string) (t : string) :
  t ∉ l -> assignWeights l !! t = None.
Proof.
  intros Hnot. unfold assignWeights, JS.forEach.
  by rewrite forEach_from_absent.
Qed.

Lemma lookup_assignWeights_proto (l : list string) :
  assignWeights l !! "__proto__" = None.
Proof. unfold assignWeights, JS.forEach. by rewrite forEach_from_proto. Qed.

(** What the lookup [t in weights ? weights[t] : 0] gives. *)
Lemma weightOf_own (weights : gmap string Z) (t : string) (n : Z) :
  weights !! t = Some n -> weightOf weights t = JS.number n.
Proof.
  intros Ht. unfold weightOf, JS.has, JS.get. rewrite Ht.
  by rewrite bool_decide_eq_true_2.
Qed.

Lemma weightOf_inherited (weights : gmap string Z) (t : string) :
  weights !! t = None -> t ∈ JS.inheritedNames -> weightOf weights t = JS.member t.
Proof.
  intros Ht Hin. unfold weightOf, JS.has, JS.get. rewrite Ht.
  rewrite (bool_decide_eq_true_2 (t ∈ JS.inheritedNames)) by done.
  by rewrite orb_true_r.
Qed.

Lemma weightOf_plain (weights : gmap string Z) (t : string) :
  plain t -> weightOf weights t = JS.number (weight weights t).
Proof.
  intros Hplain. unfold weight. destruct (weights !! t) as [n|] eqn:Ht.
  - by apply weightOf_own.
  - unfold weightOf, JS.has. rewrite Ht.
    rewrite bool_decide_eq_false_2 by (by intros [? ?]).
    by rewrite bool_decide_eq_false_2.
Qed.

Lemma weightOf_last (l : list string) (i : nat) (t : string) :
  l !! i = Some t ->
  t ∉ drop (S i) l ->
  t ≠ "__proto__" ->
  weightOf (assignWeights l) t = JS.number (Z.of_nat (length l) - Z.of_nat i).
Proof. intros Hi Hlast Hp. by apply weightOf_own, lookup_assignWeights_last. Qed.

Lemma weightOf_absent (l : list string) (t : string) :
  t ∉ l -> plain t -> weightOf (assignWeights l) t = JS.number 0.
Proof.
  intros Hnot Hplain. rewrite weightOf_plain by done.
  unfold weight. by rewrite lookup_assignWeights_absent.
Qed.

(** The numbers of a table: 0 for a token outside the list, between 1 and
    the length of the list for a token in it. *)
Lemma weight_absent (l : list string) (t : string) :
  t ∉ l -> weight (assignWeights l) t = 0.
Proof. intros Hnot. unfold weight. by rewrite lookup_assignWeights_absent. Qed.

Lemma weight_last (l : list string) (i : nat) (t : string) :
  l !! i = Some t -> t ∉ drop (S i) l -> t ≠ "__proto__" ->
  weight (assignWeights l) t = Z.of_nat (length l) - Z.of_nat i.
Proof.
  intros Hi Hlast Hp. unfold weight. by rewrite (lookup_assignWeights_last l i).
Qed.

Lemma weight_present (l : list string) (t : string) :
  t ∈ l -> t ≠ "__proto__" -> 1 <= weight (assignWeights l) t.
Proof.
  intros Hin Hp. destruct (last_position l t Hin) as (i & Hi & Hlast).
  rewrite (weight_last l i t Hi Hlast Hp).
  apply lookup_lt_Some in Hi. lia.
Qed.

Lemma weight_nonneg (l : list string) (t : string) :
  0 <= weight (assignWeights l) t.
Proof.
  destruct (decide (t ∈ l)) as [Hin|Hnot]; [|by rewrite weight_absent].
  destruct (decide (t = "__proto__")) as [->|Hp].
  - unfold weight. by rewrite lookup_assignWeights_proto.
  - pose proof (weight_present l t Hin Hp). lia.
Qed.

Lemma plain_not_proto (t : string) : plain t -> t ≠ "__proto__".
Proof. intros Hplain ->. apply Hplain. by_computation. Qed.

(** C1 (amended).  Let [list] be the list a weight table is built from: the
    parsed format preferences, or the parsed language preferences filtered
    to the supported (lowercase) language names.  With [N] its length, the
    token at position [i] that does not occur again after [i], and is not
    [__proto__], has weight [N - i]; these weights strictly decrease with
    the position; a token absent from [list], and so every unsupported
    language, has weight 0 when it is not the name of a member that every
    table inherits. *)
Theorem weight_table_by_position `{!JS.Engine}
    (languages : list Language) (preference : string)
    (list : list string) (weights : gmap string Z) :
  (list = parseLowerCaseArray preference /\ weights = formatWeights preference)
  \/ (list = filter (λ pl, pl ∈ supportedNames languages)
                    (parseLowerCaseArray preference)
      /\ weights = languageWeights languages preference) ->
  (forall i t, list !! i = Some t -> t ∉ drop (S i) list -> t ≠ "__proto__" ->
     weightOf weights t = JS.number (Z.of_nat (length list) - Z.of_nat i))
  /\ (forall i j ti tj, (i < j)%nat ->
        list !! i = Some ti -> ti ∉ drop (S i) list -> ti ≠ "__proto__" ->
        list !! j = Some tj -> tj ∉ drop (S j) list -> tj ≠ "__proto__" ->
        exists wi wj, weightOf weights ti = JS.number wi
                      /\ weightOf weights tj = JS.number wj /\ wj < wi)
  /\ (NoDup list -> forall i t, list !! i = Some t -> t ≠ "__proto__" ->
        weightOf weights t = JS.number (Z.of_nat (length list) - Z.of_nat i))
  /\ (forall t, t ∉ list -> plain t -> weightOf weights t = JS.number 0)
  /\ (weights = languageWeights languages preference ->
      forall t, t ∉ supportedNames languages -> plain t ->
        weightOf weights t = JS.number 0)
  /\ (forall t, t ∈ filteredPreferredLanguageList languages preference <->
        t ∈ parseLowerCaseArray preference
        /\ exists l, l ∈ languages /\ JS.toLowerCase (name l) = t).
Proof.
  intros Hlist.
  assert (weights = assignWeights list) as ->.
  { destruct Hlist as [[-> ->]|[-> ->]]; reflexivity. }
  split; [|split; [|split; [|split; [|split]]]]; cycle 5.
  { intros t. unfold filteredPreferredLanguageList, supportedNames. split.
    - intros [Hsup Hin]%list_elem_of_filter. split; [done|].
      apply list_elem_of_In, in_map_iff in Hsup as (l & Hl & Hin').
      exists l. split; [by apply list_elem_of_In|done].
    - intros [Hin (l & Hl & Heq)]. apply list_elem_of_filter. split; [|done].
      apply list_elem_of_In, in_map_iff. exists l.
      split; [done|by apply list_elem_of_In]. }
  - intros i t. apply weightOf_last.
  - intros i j ti tj Hij Hi Hli Hpi Hj Hlj Hpj.
    eexists _, _. split; [by apply (weightOf_last list i)|].
    split; [by apply (weightOf_last list j)|]. lia.
  - intros Hnd i t Hi Hp. apply weightOf_last; [done| |done].
    by apply NoDup_last_position.
  - apply weightOf_absent.
  - intros -> t Hnot. apply weightOf_absent.
    unfold filteredPreferredLanguageList.
    intros [Hsup _]%list_elem_of_filter. done.
Qed.

Lemma filter_ext_elem {A : Type} (P Q : A -> Prop)
    `{!forall x, Decision (P x)} `{!forall x, Decision (Q x)} (l : list A) :
  (forall x, (x ∈ l) -> (P x <-> Q x)) -> filter P l = filter Q l.
Proof.
  induction l as [|x l IH]; intros Hext; [done|].
  rewrite !filter_cons, IH by (intros y Hy; apply Hext; by right).
  destruct (Hext x ltac:(left)) as [HPQ HQP].
  repeat case_decide; try done; tauto.
Qed.

(** ** Scores *)

Lemma sum_at_least (f : string -> Z) (ts : list string) (t : string) :
  (forall x, 0 <= f x) -> t ∈ ts -> f t <= foldr Z.add 0 (map f ts).
Proof.
  intros Hf. induction ts as [|x ts IH]; intros Hin; [by apply elem_of_nil in Hin|].
  simpl. assert (0 <= foldr Z.add 0 (map f ts)) as Hsum.
  { clear -Hf. induction ts as [|y ts IH]; simpl; [lia|]. pose proof (Hf y). lia. }
  apply elem_of_cons in Hin as [->|Hin]; [lia|].
  pose proof (Hf x). specialize (IH Hin). lia.
Qed.

Lemma sum_zero (f : string -> Z) (ts : list string) :
  (forall x, (x ∈ ts) -> f x = 0) -> foldr Z.add 0 (map f ts) = 0.
Proof.
  induction ts as [|x ts IH]; intros Hz; simpl; [done|].
  rewrite (Hz x) by left. rewrite IH; [done|]. intros y Hy. apply Hz. by right.
Qed.

Lemma sum_permutation (f : string -> Z) (l1 l2 : list string) :
  Permutation l1 l2 -> foldr Z.add 0 (map f l1) = foldr Z.add 0 (map f l2).
Proof. induction 1; simpl; lia. Qed.

(** The sum of numbers is a number. *)
Lemma reduce_plus_numbers (weights : gmap string Z) (a : Z) (ts : list string) :
  Forall plain ts ->
  JS.reduce JS.plus (JS.number a) (map (weightOf weights) ts)
  = JS.number (a + foldr Z.add 0 (map (weight weights) ts)).
Proof.
  unfold JS.reduce. revert a. induction ts as [|t ts IH]; intros a Hplain; simpl.
  - f_equal. lia.
  - apply Forall_cons in Hplain as [Ht Hts].
    rewrite (weightOf_plain weights t Ht). simpl. rewrite IH by done.
    f_equal. lia.
Qed.

(** A string stays a string, and one value that is not a number makes the
    sum a string. *)
Lemma reduce_plus_text (vs : list JS.Value) : JS.reduce JS.plus JS.text vs = JS.text.
Proof. unfold JS.reduce. induction vs as [|v vs IH]; simpl; [done|]. exact IH. Qed.

Lemma reduce_plus_not_number (init v : JS.Value) (vs : list JS.Value) :
  v ∈ vs -> (forall n, v ≠ JS.number n) -> JS.reduce JS.plus init vs = JS.text.
Proof.
  intros Hin Hv. revert init. induction vs as [|x vs IH]; intros init;
    [by apply elem_of_nil in Hin|].
  change (JS.reduce JS.plus init (x :: vs)) with (JS.reduce JS.plus (JS.plus init x) vs).
  apply elem_of_cons in Hin as [<-|Hin].
  - assert (JS.plus init v = JS.text) as ->; [|apply reduce_plus_text].
    destruct init, v; try done. by destruct (Hv n0).
  - by apply IH.
Qed.

Lemma languageScore_plain `{!JS.Engine} (weights : gmap string Z) (b : BookEntry) :
  plainLanguages b -> languageScore weights b = JS.number (languageSum weights b).
Proof.
  intros Hplain. unfold languageScore, languageSum.
  by rewrite reduce_plus_numbers.
Qed.

Lemma formatScore_plain (weights : gmap string Z) (b : BookEntry) :
  plainExtension b -> formatScore weights b = JS.number (formatWeight weights b).
Proof. apply weightOf_plain. Qed.

(** The score of a book one of whose language tokens names an inherited
    member that the table does not hold as its own is a string. *)
Lemma languageScore_inherited `{!JS.Engine}
    (weights : gmap string Z) (b : BookEntry) (t : string) :
  t ∈ parseLowerCaseArray (language b) ->
  weights !! t = None -> t ∈ JS.inheritedNames ->
  languageScore weights b = JS.text.
Proof.
  intros Hin Hnone Hinh. unfold languageScore.
  apply (reduce_plus_not_number _ (JS.member t)); [|done].
  rewrite <- (weightOf_inherited weights t Hnone Hinh).
  apply list_elem_of_In, in_map. by apply list_elem_of_In.
Qed.

Lemma minus_not_number_l (x y : JS.Value) :
  (forall n, x ≠ JS.number n) -> JS.minus x y = JS.NaN.
Proof. intros Hx. destruct x; try done. by destruct (Hx n). Qed.

Lemma minus_not_number_r (x y : JS.Value) :
  (forall n, y ≠ JS.number n) -> JS.minus x y = JS.NaN.
Proof. intros Hy. destruct x, y; try done. by destruct (Hy n0). Qed.

(** ** The rankers *)

Section RankerProperties.

Context {engine : JS.Engine}.
Variable languages : list Language.

Lemma languageCompare_plain (weights : gmap string Z) (a b : BookEntry) :
  plainLanguages a -> plainLanguages b ->
  languageCompare weights a b
  = JS.finite (languageSum weights b - languageSum weights a).
Proof.
  intros Ha Hb. unfold languageCompare.
  by rewrite !languageScore_plain.
Qed.

Lemma formatCompare_plain (weights : gmap string Z) (a b : BookEntry) :
  plainExtension a -> plainExtension b ->
  formatCompare weights a b
  = JS.finite (formatWeight weights b - formatWeight weights a).
Proof.
  intros Ha Hb. unfold formatCompare.
  by rewrite !formatScore_plain.
Qed.

(** On an array of plain tokens the comparators are consistent, and the
    sort is the stable sort by the numeric score. *)
Lemma sort_languages_plain (weights : gmap string Z) (l : list BookEntry) :
  Forall plainLanguages l ->
  JS.sort (languageCompare weights) l
  = JS.insertionSort (JS.byKey (languageSum weights)) l.
Proof.
  intros Hplain. apply JS.sort_consistent. intros a b Ha Hb.
  rewrite Forall_forall in Hplain.
  apply languageCompare_plain; by apply Hplain, list_elem_of_In.
Qed.

Lemma sort_formats_plain (weights : gmap string Z) (l : list BookEntry) :
  Forall plainExtension l ->
  JS.sort (formatCompare weights) l
  = JS.insertionSort (JS.byKey (formatWeight weights)) l.
Proof.
  intros Hplain. apply JS.sort_consistent. intros a b Ha Hb.
  rewrite Forall_forall in Hplain.
  apply formatCompare_plain; by apply Hplain, list_elem_of_In.
Qed.

(** What the two operations leave in the store. *)
Lemma sortBooksByPreferredLanguages_array
    (books : ref) (preference : string) (σ : store) (l : list BookEntry) :
  σ !! books = Some l ->
  (sortBooksByPreferredLanguages languages books preference σ).1 !! books
  = Some (JS.sort (languageCompare (languageWeights languages preference)) l).
Proof.
  intros Hl. unfold sortBooksByPreferredLanguages. simpl.
  by rewrite lookup_alter_eq, Hl.
Qed.

Lemma sortBooksByPreferredFileFormats_array
    (books : ref) (preference : string) (σ : store) (l : list BookEntry) :
  σ !! books = Some l ->
  (sortBooksByPreferredFileFormats books preference σ).1 !! books
  = Some (JS.sort (formatCompare (formatWeights preference)) l).
Proof.
  intros Hl. unfold sortBooksByPreferredFileFormats. simpl.
  by rewrite lookup_alter_eq, Hl.
Qed.

Lemma sortBooksByPreferredLanguages_plain
    (books : ref) (preference : string) (σ : store) (l : list BookEntry) :
  σ !! books = Some l ->
  Forall plainLanguages l ->
  (sortBooksByPreferredLanguages languages books preference σ).1 !! books
  = Some (JS.insertionSort
            (JS.byKey (languageSum (languageWeights languages preference))) l).
Proof.
  intros Hl Hplain.
  by rewrite (sortBooksByPreferredLanguages_array _ _ _ _ Hl), sort_languages_plain.
Qed.

Lemma sortBooksByPreferredFileFormats_plain
    (books : ref) (preference : string) (σ : store) (l : list BookEntry) :
  σ !! books = Some l ->
  Forall plainExtension l ->
  (sortBooksByPreferredFileFormats books preference σ).1 !! books
  = Some (JS.insertionSort
            (JS.byKey (formatWeight (formatWeights preference))) l).
Proof.
  intros Hl Hplain.
  by rewrite (sortBooksByPreferredFileFormats_array _ _ _ _ Hl), sort_formats_plain.
Qed.

(** A ranker that leaves its array as it is leaves the store as it is. *)
Lemma alter_fixed (f : list BookEntry -> list BookEntry)
    (books : ref) (σ : store) (l : list BookEntry) :
  σ !! books = Some l -> f l = l -> alter f books σ = σ.
Proof.
  intros Hl Hf. apply map_eq. intros r.
  destruct (decide (books = r)) as [<-|Hne].
  - by rewrite lookup_alter_eq, Hl; simpl; rewrite Hf.
  - by rewrite lookup_alter_ne.
Qed.

(** With no preference the tables are empty. *)
Lemma parseLowerCaseArray_empty : parseLowerCaseArray "" = [].
Proof. by rewrite parseLowerCaseArray_ascii. Qed.

Lemma languageWeights_no_preference : languageWeights languages "" = ∅.
Proof.
  unfold languageWeights, filteredPreferredLanguageList.
  by rewrite parseLowerCaseArray_empty.
Qed.

Lemma formatWeights_no_preference : formatWeights "" = ∅.
Proof.
  unfold formatWeights, preferredFormatList.
  by rewrite parseLowerCaseArray_empty.
Qed.

Lemma languageSum_empty (b : BookEntry) : languageSum ∅ b = 0.
Proof. unfold languageSum. by apply sum_zero. Qed.

(** C9.  Both rankers sort in place and return the reference they were
    given: the array at that reference becomes a permutation of what it was,
    every other array of the store is untouched, and the books themselves
    are the same records, field by field. *)
Theorem ranking_in_place
    (books : ref) (preference : string) (σ : store) (l : list BookEntry) :
  σ !! books = Some l ->
  ((sortBooksByPreferredLanguages languages books preference σ).2 = books
   /\ (exists out,
         (sortBooksByPreferredLanguages languages books preference σ).1 !! books
         = Some out /\ Permutation l out /\ (forall b, b ∈ out <-> b ∈ l))
   /\ (forall r, r ≠ books ->
         (sortBooksByPreferredLanguages languages books preference σ).1 !! r
         = σ !! r))
  /\ ((sortBooksByPreferredFileFormats books preference σ).2 = books
   /\ (exists out,
         (sortBooksByPreferredFileFormats books preference σ).1 !! books
         = Some out /\ Permutation l out /\ (forall b, b ∈ out <-> b ∈ l))
   /\ (forall r, r ≠ books ->
         (sortBooksByPreferredFileFormats books preference σ).1 !! r = σ !! r)).
Proof.
  intros Hl. split; (split; [reflexivity|split]).
  - eexists. split; [by apply sortBooksByPreferredLanguages_array|].
    pose proof (JS.sort_permutation _
                  (languageCompare (languageWeights languages preference)) l) as Hp.
    split; [exact Hp|]. intros b. by rewrite <- Hp.
  - intros r Hr. unfold sortBooksByPreferredLanguages. simpl.
    by rewrite lookup_alter_ne.
  - eexists. split; [by apply sortBooksByPreferredFileFormats_array|].
    pose proof (JS.sort_permutation _
                  (formatCompare (formatWeights preference)) l) as Hp.
    split; [exact Hp|]. intros b. by rewrite <- Hp.
  - intros r Hr. unfold sortBooksByPreferredFileFormats. simpl.
    by rewrite lookup_alter_ne.
Qed.

End RankerProperties.

(** ** Ranking arrays of plain tokens *)

Section PlainRanking.

Context {engine : JS.Engine}.
Variable languages : list Language.

(** A stable sort by a numeric score, seen through a score that is that
    number on the books of the array. *)
Lemma stable_by_score (score : BookEntry -> JS.Value) (key : BookEntry -> Z)
    (l : list BookEntry) :
  (forall b, (b ∈ l) -> score b = JS.number (key b)) ->
  (forall w, filter (λ b, score b = JS.number w) (JS.insertionSort (JS.byKey key) l)
             = filter (λ b, score b = JS.number w) l)
  /\ (forall a b, score a = score b ->
        (before a b l <-> before a b (JS.insertionSort (JS.byKey key) l)))
  /\ (forall a b, before a b (JS.insertionSort (JS.byKey key) l) ->
        exists x y, score a = JS.number x /\ score b = JS.number y /\ y <= x).
Proof.
  intros Hscore.
  pose proof (insertionSort_perm (JS.byKey key) l) as Hperm.
  assert (forall b, (b ∈ JS.insertionSort (JS.byKey key) l) ->
                    score b = JS.number (key b)) as Hscore'.
  { intros b Hb. apply Hscore. by rewrite Hperm. }
  split; [|split].
  - intros w.
    rewrite (filter_ext_elem (λ b, score b = JS.number w) (λ b, key b = w)
               (JS.insertionSort _ l)).
    + rewrite (filter_ext_elem (λ b, score b = JS.number w) (λ b, key b = w) l).
      * apply sort_filter.
      * intros b Hb. rewrite (Hscore b Hb). split; congruence.
    + intros b Hb. rewrite (Hscore' b Hb). split; congruence.
  - intros a b Hab. split.
    + intros Hbefore. destruct (before_elem_of a b l Hbefore) as [Ha Hb].
      rewrite (Hscore a Ha), (Hscore b Hb) in Hab. injection Hab as Hab.
      by apply sort_before.
    + intros Hbefore.
      destruct (before_elem_of a b _ Hbefore) as [Ha Hb].
      rewrite (Hscore' a Ha), (Hscore' b Hb) in Hab. injection Hab as Hab.
      by apply (sort_before key).
  - intros a b Hbefore.
    destruct (before_elem_of a b _ Hbefore) as [Ha Hb].
    exists (key a), (key b). split; [by apply Hscore'|]. split; [by apply Hscore'|].
    by apply (descending_before key a b _ (sort_descending key l)).
Qed.

Lemma plainLanguages_scores (weights : gmap string Z) (l : list BookEntry) :
  Forall plainLanguages l ->
  forall b, (b ∈ l) -> languageScore weights b = JS.number (languageSum weights b).
Proof.
  intros Hplain b Hb. rewrite Forall_forall in Hplain.
  by apply languageScore_plain, Hplain.
Qed.

Lemma plainExtension_scores (weights : gmap string Z) (l : list BookEntry) :
  Forall plainExtension l ->
  forall b, (b ∈ l) -> formatScore weights b = JS.number (formatWeight weights b).
Proof.
  intros Hplain b Hb. rewrite Forall_forall in Hplain.
  by apply formatScore_plain, Hplain.
Qed.

(** X24.  On an array whose tokens are plain both rankers are stable:
    the books of each score are the same, in the same order, in the sorted
    array as before, so two books of equal score keep their relative
    order.  With the empty preference every score of such an array is 0
    and the store is unchanged. *)
Theorem ranking_is_stable_on_plain_tokens
    (books : ref) (preference : string) (σ : store) (l : list BookEntry) :
  σ !! books = Some l ->
  Forall plainLanguages l ->
  Forall plainExtension l ->
  (exists out,
      (sortBooksByPreferredLanguages languages books preference σ).1 !! books
      = Some out
      /\ (forall w,
             filter (λ b, languageScore (languageWeights languages preference) b
                          = JS.number w) out
             = filter (λ b, languageScore (languageWeights languages preference) b
                            = JS.number w) l)
      /\ (forall a b,
             languageScore (languageWeights languages preference) a
             = languageScore (languageWeights languages preference) b ->
             (before a b l <-> before a b out)))
  /\ (exists out,
      (sortBooksByPreferredFileFormats books preference σ).1 !! books = Some out
      /\ (forall w,
             filter (λ b, formatScore (formatWeights preference) b = JS.number w) out
             = filter (λ b, formatScore (formatWeights preference) b = JS.number w) l)
      /\ (forall a b,
             formatScore (formatWeights preference) a
             = formatScore (formatWeights preference) b ->
             (before a b l <-> before a b out)))
  /\ (forall b, (b ∈ l) ->
        languageScore (languageWeights languages "") b = JS.number 0
        /\ formatScore (formatWeights "") b = JS.number 0)
  /\ (sortBooksByPreferredLanguages languages books "" σ).1 = σ
  /\ (sortBooksByPreferredFileFormats books "" σ).1 = σ.
Proof.
  intros Hl HL HF. split; [|split; [|split; [|split]]].
  - eexists. split; [by apply sortBooksByPreferredLanguages_plain|].
    pose proof (stable_by_score _ _ l
                  (plainLanguages_scores (languageWeights languages preference) l HL))
      as (Hfilter & Hbefore & _).
    by split.
  - eexists. split; [by apply sortBooksByPreferredFileFormats_plain|].
    pose proof (stable_by_score _ _ l
                  (plainExtension_scores (formatWeights preference) l HF))
      as (Hfilter & Hbefore & _).
    by split.
  - intros b Hb. split.
    + rewrite (plainLanguages_scores _ l HL b Hb), languageWeights_no_preference.
      by rewrite languageSum_empty.
    + by rewrite (plainExtension_scores _ l HF b Hb), formatWeights_no_preference.
  - unfold sortBooksByPreferredLanguages. simpl.
    apply (alter_fixed _ _ _ l Hl).
    rewrite sort_languages_plain by done.
    apply sort_descending_id, (constant_descending _ 0).
    intros b _. rewrite languageWeights_no_preference. apply languageSum_empty.
  - unfold sortBooksByPreferredFileFormats. simpl.
    apply (alter_fixed _ _ _ l Hl).
    rewrite sort_formats_plain by done.
    apply sort_descending_id, (constant_descending _ 0).
    intros b _. by rewrite formatWeights_no_preference.
Qed.

(** X1.  After either ranker an array of plain tokens is in
    descending order of score: a book never comes before a book of a
    strictly greater score. *)
Theorem ranked_by_descending_score
    (books : ref) (preference : string) (σ : store) (l : list BookEntry) :
  σ !! books = Some l ->
  Forall plainLanguages l ->
  Forall plainExtension l ->
  (exists out,
      (sortBooksByPreferredLanguages languages books preference σ).1 !! books
      = Some out
      /\ descending (languageSum (languageWeights languages preference)) out
      /\ forall a b, before a b out ->
           exists x y,
             languageScore (languageWeights languages preference) a = JS.number x
             /\ languageScore (languageWeights languages preference) b = JS.number y
             /\ y <= x)
  /\ (exists out,
      (sortBooksByPreferredFileFormats books preference σ).1 !! books = Some out
      /\ descending (formatWeight (formatWeights preference)) out
      /\ forall a b, before a b out ->
           exists x y,
             formatScore (formatWeights preference) a = JS.number x
             /\ formatScore (formatWeights preference) b = JS.number y
             /\ y <= x).
Proof.
  intros Hl HL HF. split; eexists.
  - split; [by apply sortBooksByPreferredLanguages_plain|].
    split; [apply sort_descending|].
    apply (stable_by_score _ _ l
             (plainLanguages_scores (languageWeights languages preference) l HL)).
  - split; [by apply sortBooksByPreferredFileFormats_plain|].
    split; [apply sort_descending|].
    apply (stable_by_score _ _ l
             (plainExtension_scores (formatWeights preference) l HF)).
Qed.

Lemma Forall_insertionSort {A : Type} (P : A -> Prop)
    (compareFn : A -> A -> JS.Number) (l : list A) :
  Forall P l -> Forall P (JS.insertionSort compareFn l).
Proof. intros Hl. by rewrite <- (insertionSort_perm compareFn l). Qed.

(** X2.  Ranking is idempotent: running a ranker again with the same
    preference on an
    array of plain tokens changes nothing in the store. *)
Theorem ranking_twice_is_ranking_once
    (books : ref) (preference : string) (σ : store) (l : list BookEntry) :
  σ !! books = Some l ->
  Forall plainLanguages l ->
  Forall plainExtension l ->
  (sortBooksByPreferredLanguages languages
     (sortBooksByPreferredLanguages languages books preference σ).2 preference
     (sortBooksByPreferredLanguages languages books preference σ).1).1
  = (sortBooksByPreferredLanguages languages books preference σ).1
  /\ (sortBooksByPreferredFileFormats
        (sortBooksByPreferredFileFormats books preference σ).2 preference
        (sortBooksByPreferredFileFormats books preference σ).1).1
     = (sortBooksByPreferredFileFormats books preference σ).1.
Proof.
  intros Hl HL HF. split.
  - pose proof (sortBooksByPreferredLanguages_plain languages books preference σ l
                  Hl HL) as Hout.
    unfold sortBooksByPreferredLanguages in *. simpl in *.
    apply (alter_fixed _ _ _ _ Hout).
    rewrite sort_languages_plain by (by apply Forall_insertionSort).
    apply sort_descending_id, sort_descending.
  - pose proof (sortBooksByPreferredFileFormats_plain books preference σ l
                  Hl HF) as Hout.
    unfold sortBooksByPreferredFileFormats in *. simpl in *.
    apply (alter_fixed _ _ _ _ Hout).
    rewrite sort_formats_plain by (by apply Forall_insertionSort).
    apply sort_descending_id, sort_descending.
Qed.

(** X3.  The rankers chain: ranking an array of plain tokens by language
    and then, on
    the reference returned, by format leaves a permutation of the array in
    descending order of format score in which the books of one format score
    are in descending order of language score. *)
Theorem format_ranking_after_language_ranking
    (books : ref) (preferredLanguages preferredFormats : string)
    (σ : store) (l : list BookEntry) :
  σ !! books = Some l ->
  Forall plainLanguages l ->
  Forall plainExtension l ->
  exists out,
    (sortBooksByPreferredFileFormats
       (sortBooksByPreferredLanguages languages books preferredLanguages σ).2
       preferredFormats
       (sortBooksByPreferredLanguages languages books preferredLanguages σ).1).1
      !! books = Some out
    /\ Permutation l out
    /\ (forall b, (b ∈ out) ->
          languageScore (languageWeights languages preferredLanguages) b
          = JS.number (languageSum (languageWeights languages preferredLanguages) b)
          /\ formatScore (formatWeights preferredFormats) b
             = JS.number (formatWeight (formatWeights preferredFormats) b))
    /\ descending (formatWeight (formatWeights preferredFormats)) out
    /\ forall w,
         descending (languageSum (languageWeights languages preferredLanguages))
           (filter (λ b, formatWeight (formatWeights preferredFormats) b = w) out).
Proof.
  intros Hl HL HF.
  pose proof (sortBooksByPreferredLanguages_plain languages books
                preferredLanguages σ l Hl HL) as H1.
  pose proof (sortBooksByPreferredFileFormats_plain books preferredFormats _ _ H1
                (Forall_insertionSort _ _ _ HF)) as H2.
  eexists. split; [exact H2|].
  assert (Permutation l
            (JS.insertionSort
               (JS.byKey (formatWeight (formatWeights preferredFormats)))
               (JS.insertionSort
                  (JS.byKey (languageSum (languageWeights languages preferredLanguages)))
                  l))) as Hperm.
  { rewrite <- insertionSort_perm. apply insertionSort_perm. }
  split; [exact Hperm|]. split; [|split].
  - intros b Hb. rewrite <- Hperm in Hb. split.
    + by apply (plainLanguages_scores _ l).
    + by apply (plainExtension_scores _ l).
  - apply sort_descending.
  - intros w. rewrite (sort_filter (formatWeight (formatWeights preferredFormats))).
    apply descending_filter, sort_descending.
Qed.

End PlainRanking.

(** ** What the preference means for the ranked array *)

Lemma lookup_alter_Some (f : list BookEntry -> list BookEntry)
    (books : ref) (σ : store) (out : list BookEntry) :
  alter f books σ !! books = Some out ->
  exists l, σ !! books = Some l /\ out = f l.
Proof.
  rewrite lookup_alter_eq. destruct (σ !! books) as [l|]; [|done].
  intros [= <-]. by exists l.
Qed.

(** The array a ranker leaves, when its tokens are plain, is the stable
    sort by the numeric score of the array that was there. *)
Lemma ranked_languages_plain `{!JS.Engine}
    (languages : list Language) (books : ref) (preference : string) (σ : store)
    (out : list BookEntry) :
  (sortBooksByPreferredLanguages languages books preference σ).1 !! books = Some out ->
  Forall plainLanguages out ->
  exists l, σ !! books = Some l
    /\ out = JS.insertionSort
               (JS.byKey (languageSum (languageWeights languages preference))) l.
Proof.
  intros (l & Hl & ->)%lookup_alter_Some Hplain. exists l. split; [done|].
  apply sort_languages_plain.
  by rewrite (JS.sort_permutation _
                (languageCompare (languageWeights languages preference)) l).
Qed.

Lemma ranked_formats_plain `{!JS.Engine}
    (books : ref) (preference : string) (σ : store) (out : list BookEntry) :
  (sortBooksByPreferredFileFormats books preference σ).1 !! books = Some out ->
  Forall plainExtension out ->
  exists l, σ !! books = Some l
    /\ out = JS.insertionSort
               (JS.byKey (formatWeight (formatWeights preference))) l.
Proof.
  intros (l & Hl & ->)%lookup_alter_Some Hplain. exists l. split; [done|].
  apply sort_formats_plain.
  by rewrite (JS.sort_permutation _ (formatCompare (formatWeights preference)) l).
Qed.

(** X4.  Format ranking respects the preference: in a ranked array of
    plain extensions, when
    [b] comes before [a] and the format of [a] is a preferred one, the
    format of [b] is preferred too, and in a preference without repetition
    it does not stand after the format of [a]. *)
Theorem preferred_formats_come_first `{!JS.Engine}
    (books : ref) (preference : string) (σ : store)
    (out : list BookEntry) (a b : BookEntry) :
  (sortBooksByPreferredFileFormats books preference σ).1 !! books = Some out ->
  Forall plainExtension out ->
  before b a out ->
  (cleanExtension a ∈ preferredFormatList preference ->
   cleanExtension b ∈ preferredFormatList preference)
  /\ (NoDup (preferredFormatList preference) ->
      forall i j,
        preferredFormatList preference !! i = Some (cleanExtension a) ->
        preferredFormatList preference !! j = Some (cleanExtension b) ->
        (j <= i)%nat).
Proof.
  intros Hout Hplain Hba.
  destruct (before_elem_of b a out Hba) as [Hb Ha].
  rewrite Forall_forall in Hplain.
  pose proof (plain_not_proto _ (Hplain a Ha)) as Hpa.
  pose proof (plain_not_proto _ (Hplain b Hb)) as Hpb.
  apply ranked_formats_plain in Hout as (l & _ & ->);
    [|by apply Forall_forall].
  pose proof (descending_before (formatWeight (formatWeights preference)) b a _
                (sort_descending _ l) Hba) as Hle.
  unfold formatWeight, formatWeights in Hle. split.
  - intros Hin. destruct (decide (cleanExtension b ∈ preferredFormatList preference))
      as [Hbin|Hbin]; [done|].
    pose proof (weight_present _ _ Hin Hpa). rewrite (weight_absent _ _ Hbin) in Hle. lia.
  - intros Hnd i j Hi Hj.
    rewrite (weight_last _ i _ Hi (NoDup_last_position _ _ _ Hnd Hi) Hpa),
      (weight_last _ j _ Hj (NoDup_last_position _ _ _ Hnd Hj) Hpb) in Hle. lia.
Qed.

(** X5.  Language ranking respects the preference: in a ranked array of
    plain language tokens,
    when [b] comes before [a] and some language of [a] is a supported
    preferred one, so is some language of [b]. *)
Theorem preferred_languages_come_first `{!JS.Engine}
    (languages : list Language) (books : ref) (preference : string) (σ : store)
    (out : list BookEntry) (a b : BookEntry) :
  (sortBooksByPreferredLanguages languages books preference σ).1 !! books = Some out ->
  Forall plainLanguages out ->
  before b a out ->
  (exists t, t ∈ parseLowerCaseArray (language a)
             /\ t ∈ filteredPreferredLanguageList languages preference) ->
  exists t, t ∈ parseLowerCaseArray (language b)
            /\ t ∈ filteredPreferredLanguageList languages preference.
Proof.
  intros Hout Hplain Hba (t & Hta & Htp).
  destruct (before_elem_of b a out Hba) as [Hb Ha].
  rewrite Forall_forall in Hplain.
  assert (t ≠ "__proto__") as Hpt.
  { apply plain_not_proto. pose proof (Hplain a Ha) as Hpa.
    unfold plainLanguages in Hpa. rewrite Forall_forall in Hpa. by apply Hpa. }
  apply ranked_languages_plain in Hout as (l & _ & ->);
    [|by apply Forall_forall].
  pose proof (descending_before (languageSum (languageWeights languages preference))
                b a _ (sort_descending _ l) Hba) as Hle.
  unfold languageSum, languageWeights in Hle.
  pose proof (sum_at_least _ _ t
                (weight_nonneg (filteredPreferredLanguageList languages preference))
                Hta) as Hsum.
  pose proof (weight_present _ _ Htp Hpt) as Hone.
  destruct (decide (Exists (λ t, t ∈ filteredPreferredLanguageList languages preference)
                      (parseLowerCaseArray (language b)))) as [Hex|Hno].
  - apply Exists_exists in Hex as (t' & Ht' & Hp). by exists t'.
  - rewrite (sum_zero _ (parseLowerCaseArray (language b))) in Hle; [lia|].
    intros x Hx. apply weight_absent. intros Hp. apply Hno, Exists_exists.
    by exists x.
Qed.

(** X6.  A language preference none of whose tokens is
    the lowercase name of a supported language ranks nothing: the table is
    empty, every score of plain tokens is 0 and an array of plain tokens is
    left as it is. *)
Theorem unsupported_preferences_rank_nothing `{!JS.Engine}
    (languages : list Language) (books : ref) (preference : string)
    (σ : store) (l : list BookEntry) :
  (forall t, (t ∈ parseLowerCaseArray preference) -> t ∉ supportedNames languages) ->
  σ !! books = Some l ->
  Forall plainLanguages l ->
  languageWeights languages preference = ∅
  /\ (forall b, plainLanguages b ->
        languageScore (languageWeights languages preference) b = JS.number 0)
  /\ (sortBooksByPreferredLanguages languages books preference σ).1 = σ.
Proof.
  intros Hnone Hl Hplain.
  assert (languageWeights languages preference = ∅) as HW.
  { unfold languageWeights, filteredPreferredLanguageList.
    by rewrite filter_none. }
  split; [exact HW|]. split.
  - intros b Hb. rewrite languageScore_plain, HW by done.
    by rewrite languageSum_empty.
  - unfold sortBooksByPreferredLanguages. simpl.
    apply (alter_fixed _ _ _ l Hl).
    rewrite sort_languages_plain by done.
    apply sort_descending_id, (constant_descending _ 0).
    intros b _. rewrite HW. apply languageSum_empty.
Qed.

(** X22.  A book of plain language tokens that lists one more
    language, a supported preferred one, beside the languages of another
    book scores strictly more, by the weight of that language, and the other
    book does not come before it in a ranked array of plain tokens. *)
Theorem one_more_preferred_language_ranks_higher `{!JS.Engine}
    (languages : list Language) (books : ref) (preference : string) (σ : store)
    (out : list BookEntry) (a b : BookEntry) (t : string) :
  (sortBooksByPreferredLanguages languages books preference σ).1 !! books = Some out ->
  Forall plainLanguages out ->
  plainLanguages a ->
  Permutation (parseLowerCaseArray (language a))
    (t :: parseLowerCaseArray (language b)) ->
  t ∈ filteredPreferredLanguageList languages preference ->
  (exists x y wt,
      languageScore (languageWeights languages preference) a = JS.number x
      /\ languageScore (languageWeights languages preference) b = JS.number y
      /\ weightOf (languageWeights languages preference) t = JS.number wt
      /\ x = wt + y /\ 1 <= wt /\ y < x)
  /\ ~ before b a out.
Proof.
  intros Hout Hplain Ha Hperm Ht.
  assert (plain t /\ plainLanguages b) as [Hpt Hb].
  { unfold plainLanguages in Ha |- *. rewrite Hperm in Ha.
    by apply Forall_cons in Ha. }
  apply ranked_languages_plain in Hout as (l & _ & ->); [|done].
  assert (languageSum (languageWeights languages preference) a
          = weight (languageWeights languages preference) t
            + languageSum (languageWeights languages preference) b) as Hsum.
  { unfold languageSum. by rewrite (sum_permutation _ _ _ Hperm). }
  pose proof (weight_present _ _ Ht (plain_not_proto t Hpt)) as Hone.
  fold (languageWeights languages preference) in Hone.
  split.
  - exists (languageSum (languageWeights languages preference) a),
      (languageSum (languageWeights languages preference) b),
      (weight (languageWeights languages preference) t).
    split; [by apply languageScore_plain|].
    split; [by apply languageScore_plain|].
    split; [by apply weightOf_plain|]. lia.
  - intros Hba.
    pose proof (descending_before (languageSum (languageWeights languages preference))
                  b a _ (sort_descending _ l) Hba). lia.
Qed.

(** ** The scenario of the specification *)

Lemma parseLowerCaseArray_sample `{!JS.Engine} :
  parseLowerCaseArray "French, English" = ["french"; "english"]
  /\ parseLowerCaseArray "English" = ["english"]
  /\ parseLowerCaseArray "German" = ["german"]
  /\ parseLowerCaseArray "pdf" = ["pdf"]
  /\ parseLowerCaseArray "constructor" = ["constructor"]
  /\ parseLowerCaseArray "English, constructor" = ["english"; "constructor"].
Proof. repeat split; by rewrite parseLowerCaseArray_ascii. Qed.

(** X25.  The language score of a book of plain tokens is the
    sum of the weights of the tokens of its [language] attribute, a token
    outside the table counting 0, and the ranker leaves an array of such
    books in descending order of that sum.  With the preference
    ["French, English"], both languages supported, the books of languages
    ["English"], ["French, English"] and ["German"], in this order, have
    scores 1, 3 and 0, and the sorted array is the second book, the first,
    the third. *)
Theorem language_ranking_sums_plain_weights `{!JS.Engine}
    (languages : list Language) (books : ref) (σ : store) (b1 b2 b3 : BookEntry) :
  "french" ∈ supportedNames languages ->
  "english" ∈ supportedNames languages ->
  language b1 = "English" ->
  language b2 = "French, English" ->
  language b3 = "German" ->
  σ !! books = Some [b1; b2; b3] ->
  (forall weights b, plainLanguages b ->
      languageScore weights b
      = JS.number (foldr Z.add 0 (map (weight weights) (parseLowerCaseArray (language b)))))
  /\ (forall (weights : gmap string Z) t,
        weights !! t = None -> plain t ->
        weightOf weights t = JS.number 0 /\ weight weights t = 0)
  /\ (forall (weights : gmap string Z) t n,
        weights !! t = Some n ->
        weightOf weights t = JS.number n /\ weight weights t = n)
  /\ (forall r preference (s : store) l,
        s !! r = Some l -> Forall plainLanguages l ->
        exists out,
          (sortBooksByPreferredLanguages languages r preference s).1 !! r = Some out
          /\ Permutation l out
          /\ descending (languageSum (languageWeights languages preference)) out)
  /\ languageScore (languageWeights languages "French, English") b2 = JS.number 3
  /\ languageScore (languageWeights languages "French, English") b1 = JS.number 1
  /\ languageScore (languageWeights languages "French, English") b3 = JS.number 0
  /\ (sortBooksByPreferredLanguages languages books "French, English" σ).1 !! books
     = Some [b2; b1; b3].
Proof.
  intros Hfr Hen H1 H2 H3 Hσ.
  destruct parseLowerCaseArray_sample as (Pfe & Pe & Pg & _).
  assert (languageWeights languages "French, English"
          = assignWeights ["french"; "english"]) as HW.
  { unfold languageWeights, filteredPreferredLanguageList.
    by rewrite Pfe, !filter_cons_True. }
  assert (plainLanguages b1 /\ plainLanguages b2 /\ plainLanguages b3)
    as (Hp1 & Hp2 & Hp3).
  { unfold plainLanguages. rewrite H1, H2, H3, Pfe, Pe, Pg.
    repeat split; by_computation. }
  assert (languageSum (languageWeights languages "French, English") b2 = 3) as S2.
  { unfold languageSum. by rewrite HW, H2, Pfe. }
  assert (languageSum (languageWeights languages "French, English") b1 = 1) as S1.
  { unfold languageSum. by rewrite HW, H1, Pe. }
  assert (languageSum (languageWeights languages "French, English") b3 = 0) as S3.
  { unfold languageSum. by rewrite HW, H3, Pg. }
  split; [intros weights b Hb; by apply languageScore_plain|].
  split.
  { intros weights t Ht Hplain. rewrite weightOf_plain by done.
    unfold weight. by rewrite Ht. }
  split.
  { intros weights t n Ht. split; [by apply weightOf_own|].
    unfold weight. by rewrite Ht. }
  split.
  { intros r preference s l Hl Hplain. eexists.
    split; [by apply sortBooksByPreferredLanguages_plain|].
    split; [apply insertionSort_perm|apply sort_descending]. }
  split; [by rewrite languageScore_plain, S2|].
  split; [by rewrite languageScore_plain, S1|].
  split; [by rewrite languageScore_plain, S3|].
  rewrite (sortBooksByPreferredLanguages_plain languages books _ σ _ Hσ)
    by (by repeat constructor).
  f_equal. symmetry. apply sort_unique.
  - repeat constructor; rewrite ?S1, ?S2, ?S3; lia.
  - intros w. rewrite !filter_cons, !filter_nil, S1, S2, S3.
    repeat case_decide; try done; lia.
Qed.

(** ** Format ranking *)

Lemma chars_deleteAll (cls : ascii -> bool) (s : string) :
  chars (JS.deleteAll cls s) = List.filter (λ c, negb (cls c)) (chars s).
Proof.
  unfold chars. induction s as [|c s IH]; simpl; [done|].
  destruct (cls c); simpl; by rewrite IH.
Qed.

Lemma deleteAll_app (cls : ascii -> bool) (s1 s2 : string) :
  JS.deleteAll cls (s1 +:+ s2) = JS.deleteAll cls s1 +:+ JS.deleteAll cls s2.
Proof.
  induction s1 as [|c s1 IH]; simpl; [done|].
  destruct (cls c); simpl; by rewrite IH.
Qed.

Lemma deleteAll_none (cls : ascii -> bool) (s : string) :
  (forall c, c ∈ chars s -> cls c = false) -> JS.deleteAll cls s = s.
Proof.
  unfold chars. induction s as [|c s IH]; simpl; intros Hc; [done|].
  rewrite (Hc c) by left. rewrite IH; [done|].
  intros c' Hc'. apply Hc. by right.
Qed.

Lemma deleteAll_clean (cls : ascii -> bool) (s : string) (c : ascii) :
  c ∈ chars (JS.deleteAll cls s) -> cls c = false.
Proof.
  rewrite chars_deleteAll, list_elem_of_In, filter_In.
  intros [_ Hc]. by apply negb_true_iff.
Qed.


(** ** Tokens that name inherited members *)

Lemma not_number_text (n : Z) : JS.text ≠ JS.number n.
Proof. done. Qed.

Lemma not_number_member (t : string) (n : Z) : JS.member t ≠ JS.number n.
Proof. done. Qed.

Lemma languageCompare_text `{!JS.Engine}
    (weights : gmap string Z) (a b : BookEntry) :
  languageScore weights a = JS.text ->
  languageCompare weights a b = JS.NaN /\ languageCompare weights b a = JS.NaN.
Proof.
  intros Ha. unfold languageCompare. rewrite Ha. split.
  - by apply minus_not_number_r.
  - by apply minus_not_number_l.
Qed.

Lemma formatCompare_member `{!JS.Engine}
    (weights : gmap string Z) (a b : BookEntry) (t : string) :
  formatScore weights a = JS.member t ->
  formatCompare weights a b = JS.NaN /\ formatCompare weights b a = JS.NaN.
Proof.
  intros Ha. unfold formatCompare. rewrite Ha. split.
  - by apply minus_not_number_r.
  - by apply minus_not_number_l.
Qed.

(** X27.  The lookup [t in weights] also finds the members a
    table inherits.  A token that names one and that the list does not
    hold reads the member, not 0, and [__proto__] does so even when the
    list holds it; the score of a book with such a language token is a
    string, that of a book with such a cleaned extension is the member, and
    the comparator of the ranker answers [NaN] whenever it is given the
    book. *)
Theorem inherited_members_are_read_as_weights `{!JS.Engine}
    (list : list string) (weights : gmap string Z) :
  (forall t, t ∈ JS.inheritedNames -> t ∉ list ->
     weightOf (assignWeights list) t = JS.member t)
  /\ weightOf (assignWeights list) "__proto__" = JS.member "__proto__"
  /\ (forall a b t,
        t ∈ parseLowerCaseArray (language a) ->
        t ∈ JS.inheritedNames -> weights !! t = None ->
        languageScore weights a = JS.text
        /\ languageCompare weights a b = JS.NaN
        /\ languageCompare weights b a = JS.NaN)
  /\ (forall a b,
        cleanExtension a ∈ JS.inheritedNames ->
        weights !! cleanExtension a = None ->
        formatScore weights a = JS.member (cleanExtension a)
        /\ formatCompare weights a b = JS.NaN
        /\ formatCompare weights b a = JS.NaN).
Proof.
  split; [|split; [|split]].
  - intros t Hinh Hnot. apply weightOf_inherited; [|done].
    by apply lookup_assignWeights_absent.
  - apply weightOf_inherited; [apply lookup_assignWeights_proto|by_computation].
  - intros a b t Hin Hinh Hnone.
    pose proof (languageScore_inherited weights a t Hin Hnone Hinh) as Ha.
    split; [done|]. exact (languageCompare_text weights a b Ha).
  - intros a b Hinh Hnone.
    pose proof (weightOf_inherited weights _ Hnone Hinh) as Ha.
    split; [done|]. exact (formatCompare_member weights a b (cleanExtension a) Ha).
Qed.

(** C2.  The two rankers at a book whose language and extension are
    ["constructor"], with the empty preference: the tables are empty, yet
    the language score of the book is a string and its format score the
    inherited member, not 0, and both comparators answer [NaN] for the
    book and any other, in either order.  The comparator is then not a
    consistent one and the order the sort leaves is the engine's own. *)
Theorem empty_preference_scores_an_inherited_name `{!JS.Engine}
    (languages : list Language) (other : BookEntry) :
  languageWeights languages "" = ∅
  /\ formatWeights "" = ∅
  /\ languageScore (languageWeights languages "") Cases.inherited = JS.text
  /\ formatScore (formatWeights "") Cases.inherited = JS.member "constructor"
  /\ languageScore (languageWeights languages "") Cases.inherited ≠ JS.number 0
  /\ formatScore (formatWeights "") Cases.inherited ≠ JS.number 0
  /\ languageCompare (languageWeights languages "") Cases.inherited other = JS.NaN
  /\ languageCompare (languageWeights languages "") other Cases.inherited = JS.NaN
  /\ formatCompare (formatWeights "") Cases.inherited other = JS.NaN
  /\ formatCompare (formatWeights "") other Cases.inherited = JS.NaN.
Proof.
  destruct parseLowerCaseArray_sample as (_ & _ & _ & _ & Pc & _).
  assert (languageScore (languageWeights languages "") Cases.inherited = JS.text)
    as HL.
  { apply (languageScore_inherited _ _ "constructor").
    - change (language Cases.inherited) with "constructor". rewrite Pc. left.
    - by rewrite languageWeights_no_preference.
    - by_computation. }
  assert (formatScore (formatWeights "") Cases.inherited = JS.member "constructor")
    as HF.
  { unfold formatScore. apply weightOf_inherited; [|by_computation].
    by rewrite formatWeights_no_preference. }
  split; [apply languageWeights_no_preference|].
  split; [apply formatWeights_no_preference|].
  split; [exact HL|]. split; [exact HF|].
  split; [by rewrite HL|]. split; [by rewrite HF|].
  destruct (languageCompare_text _ _ other HL) as [HL1 HL2].
  destruct (formatCompare_member _ _ other _ HF) as [HF1 HF2].
  by repeat split.
Qed.

(** C3.  Language ranking at a book of language ["English, constructor"],
    with the preference ["French, English"]: the tokens are [english] and
    [constructor]; the second is not in the table, and what it contributes
    is not 0 but the inherited member, so the score of the book is a
    string, no number, and the comparator answers [NaN] for the book and
    any other, in either order. *)
Theorem inherited_language_token_is_not_zero `{!JS.Engine}
    (languages : list Language) (other : BookEntry) :
  parseLowerCaseArray (language Cases.polyglot) = ["english"; "constructor"]
  /\ languageWeights languages "French, English" !! "constructor" = None
  /\ weightOf (languageWeights languages "French, English") "constructor"
     = JS.member "constructor"
  /\ weightOf (languageWeights languages "French, English") "constructor"
     ≠ JS.number 0
  /\ languageScore (languageWeights languages "French, English") Cases.polyglot
     = JS.text
  /\ (forall n, languageScore (languageWeights languages "French, English")
                  Cases.polyglot ≠ JS.number n)
  /\ languageCompare (languageWeights languages "French, English")
       Cases.polyglot other = JS.NaN
  /\ languageCompare (languageWeights languages "French, English")
       other Cases.polyglot = JS.NaN.
Proof.
  destruct parseLowerCaseArray_sample as (Pfe & _ & _ & _ & _ & Pec).
  assert (languageWeights languages "French, English" !! "constructor" = None)
    as Hnone.
  { unfold languageWeights, filteredPreferredLanguageList.
    apply lookup_assignWeights_absent. rewrite Pfe.
    intros [_ Hin]%list_elem_of_filter. revert Hin. by_computation. }
  assert (weightOf (languageWeights languages "French, English") "constructor"
          = JS.member "constructor") as HW.
  { apply weightOf_inherited; [done|by_computation]. }
  assert (languageScore (languageWeights languages "French, English") Cases.polyglot
          = JS.text) as HL.
  { apply (languageScore_inherited _ _ "constructor"); [|done|by_computation].
    change (language Cases.polyglot) with "English, constructor".
    rewrite Pec. right. left. }
  split; [exact Pec|]. split; [exact Hnone|]. split; [exact HW|].
  split; [by rewrite HW|]. split; [exact HL|].
  split; [intros n; by rewrite HL|].
  exact (languageCompare_text _ _ other HL).
Qed.

(** C6.  Format ranking at books of extensions ["constructor"] and
    ["toString"], with the preference ["pdf"]: the cleaned extensions are
    the extensions themselves, neither is in the table, and the score of
    each book is not 0 but the inherited member; the comparator answers
    [NaN] for such a book and any other, in either order. *)
Theorem inherited_extension_is_not_zero `{!JS.Engine} (other : BookEntry) :
  cleanExtension Cases.inherited = "constructor"
  /\ cleanExtension Cases.polyglot = "toString"
  /\ preferredFormatList "pdf" = ["pdf"]
  /\ formatWeights "pdf" !! "constructor" = None
  /\ formatWeights "pdf" !! "toString" = None
  /\ formatScore (formatWeights "pdf") Cases.inherited = JS.member "constructor"
  /\ formatScore (formatWeights "pdf") Cases.polyglot = JS.member "toString"
  /\ formatScore (formatWeights "pdf") Cases.inherited ≠ JS.number 0
  /\ formatScore (formatWeights "pdf") Cases.polyglot ≠ JS.number 0
  /\ formatCompare (formatWeights "pdf") Cases.inherited other = JS.NaN
  /\ formatCompare (formatWeights "pdf") other Cases.inherited = JS.NaN
  /\ formatCompare (formatWeights "pdf") Cases.polyglot other = JS.NaN
  /\ formatCompare (formatWeights "pdf") other Cases.polyglot = JS.NaN.
Proof.
  destruct parseLowerCaseArray_sample as (_ & _ & _ & Pp & _).
  assert (formatWeights "pdf" = assignWeights ["pdf"]) as HW.
  { unfold formatWeights, preferredFormatList. by rewrite Pp. }
  assert (formatScore (formatWeights "pdf") Cases.inherited = JS.member "constructor")
    as H1 by (by rewrite HW).
  assert (formatScore (formatWeights "pdf") Cases.polyglot = JS.member "toString")
    as H2 by (by rewrite HW).
  split; [done|]. split; [done|]. split; [exact Pp|].
  split; [by rewrite HW|]. split; [by rewrite HW|].
  split; [exact H1|]. split; [exact H2|].
  split; [by rewrite H1|]. split; [by rewrite H2|].
  destruct (formatCompare_member _ _ other _ H1) as [C1 C2].
  destruct (formatCompare_member _ _ other _ H2) as [C3 C4].
  by repeat split.
Qed.

(** * File names and downloads *)

Section FileNamesAndDownloads.

Context {engine : JS.Engine}.

(** ** File names *)

(** C4 (amended).  The file name of a book is ["<author> - <title>"],
    followed by [" (<year>)"] exactly when the year is not empty, with every
    slash deleted, the slashes of the year too; other characters, the
    backslash among them, are kept.  The author ["A/B"] with the title ["C"]
    and no year gives ["AB - C"]. *)
Theorem file_name_from_book_entry (b : BookEntry) :
  fileNameFromBookEntry b
  = JS.deleteAll JS.slash (author b) +:+ " - " +:+ JS.deleteAll JS.slash (title b)
    +:+ (if decide (year b = "") then ""
         else " (" +:+ JS.deleteAll JS.slash (year b) +:+ ")")
  /\ chars (fileNameFromBookEntry b)
     = List.filter (λ c, negb (Ascii.eqb c "/"))
         (chars (author b +:+ " - " +:+ title b
                 +:+ (if decide (year b = "") then ""
                      else " (" +:+ year b +:+ ")")))
  /\ (forall c, c ∈ chars (fileNameFromBookEntry b) -> c ≠ "/"%char)
  /\ (forall l e u, fileNameFromBookEntry (mkBook "C" "A/B" "" l e u) = "AB - C")
  /\ (forall l e u,
        fileNameFromBookEntry (mkBook "C" "A/B" "2001" l e u) = "AB - C (2001)").
Proof.
  unfold fileNameFromBookEntry. repeat split.
  - rewrite !deleteAll_app. destruct (decide (year b = "")) as [->|_]; [done|].
    by rewrite !deleteAll_app.
  - rewrite chars_deleteAll. by destruct (decide (year b = "")) as [->|_].
  - intros c Hc%deleteAll_clean ->. done.
Qed.

(** ** Collision-free file names *)

Section BuildFileNameProperties.

Variable join : string -> string -> string.
Variable existsSync : string -> bool.
Variables path name extension : string.

Local Abbreviation candidate index :=
  (name +:+ "-" +:+ pretty (index : N) +:+ "." +:+ extension).
Local Abbreviation loop := (buildFileName_loop join existsSync).
Local Abbreviation probe := (probeOrder name extension).

Lemma probeOrder_suffixed (k : nat) :
  probe (S k) = candidate (N.of_nat k + 2)%N.
Proof.
  unfold probeOrder.
  by replace (N.of_nat (S k + 1)) with (N.of_nat k + 2)%N by lia.
Qed.

(** The loop, started at [index], stops at the first index whose candidate
    is unused, provided the fuel reaches it. *)
Lemma buildFileName_loop_stops (m fuel : nat) (index : N) :
  (forall j, (j < m)%nat ->
     existsSync (join path (candidate (index + N.of_nat j)%N)) = true) ->
  existsSync (join path (candidate (index + N.of_nat m)%N)) = false ->
  (m < fuel)%nat ->
  loop fuel path name extension index = Some (candidate (index + N.of_nat m)%N).
Proof.
  revert fuel index. induction m as [|m IH]; intros fuel index Hused Hfree Hfuel.
  - destruct fuel as [|fuel]; [lia|]. simpl.
    rewrite N.add_0_r in Hfree. rewrite Hfree. simpl. by rewrite N.add_0_r.
  - destruct fuel as [|fuel]; [lia|]. simpl.
    pose proof (Hused 0%nat ltac:(lia)) as H0. rewrite N.add_0_r in H0.
    rewrite H0. simpl.
    replace (index + N.of_nat (S m))%N with (index + 1 + N.of_nat m)%N by lia.
    apply IH; [|by replace (index + 1 + N.of_nat m)%N
                      with (index + N.of_nat (S m))%N by lia|lia].
    intros j Hj.
    replace (index + 1 + N.of_nat j)%N with (index + N.of_nat (S j))%N by lia.
    apply Hused. lia.
Qed.

(** While every candidate is in use the loop goes on. *)
Lemma buildFileName_loop_runs (fuel : nat) (index : N) :
  (forall i, (index <= i)%N -> existsSync (join path (candidate i)) = true) ->
  loop fuel path name extension index = None.
Proof.
  revert index. induction fuel as [|fuel IH]; intros index Hused; simpl; [done|].
  rewrite Hused by lia. simpl. apply IH. intros i Hi. apply Hused. lia.
Qed.

Lemma buildFileName_first (k fuel : nat) :
  firstUnused join existsSync path name extension k ->
  (k <= fuel)%nat ->
  buildFileName join existsSync fuel path name extension = Some (probe k).
Proof.
  intros [Hfree Hused] Hfuel. unfold unused in Hfree.
  destruct k as [|k].
  - unfold buildFileName. simpl in Hfree. by rewrite Hfree.
  - rewrite probeOrder_suffixed in Hfree |- *.
    pose proof (Hused 0%nat ltac:(lia)) as H0.
    change (probe 0) with (name +:+ "." +:+ extension) in H0.
    unfold buildFileName. rewrite H0. cbn [negb].
    replace (N.of_nat k + 2)%N with (2 + N.of_nat k)%N in Hfree |- * by lia.
    apply buildFileName_loop_stops; [|done|lia].
    intros j Hj. specialize (Hused (S j) ltac:(lia)).
    rewrite probeOrder_suffixed in Hused.
    by replace (2 + N.of_nat j)%N with (N.of_nat j + 2)%N by lia.
Qed.

(** Below an unused candidate there is a first unused one. *)
Lemma first_unused_below (n : nat) :
  unused join existsSync path name extension n ->
  exists k, (k <= n)%nat /\ firstUnused join existsSync path name extension k.
Proof.
  intros Hn.
  assert (forall m, (exists k, (k < m)%nat
                         /\ firstUnused join existsSync path name extension k)
                    \/ (forall j, (j < m)%nat ->
                          existsSync (join path (probe j)) = true)) as Hsearch.
  { induction m as [|m [(k & Hk & Hfirst)|Hall]].
    - right. intros j Hj. lia.
    - left. exists k. split; [lia|done].
    - destruct (existsSync (join path (probe m))) eqn:Hm.
      + right. intros j Hj. destruct (decide (j = m)) as [->|]; [done|].
        apply Hall. lia.
      + left. exists m. split; [lia|]. by split. }
  destruct (Hsearch (S n)) as [(k & Hk & Hfirst)|Hall].
  - exists k. split; [lia|done].
  - unfold unused in Hn. rewrite Hall in Hn by lia. done.
Qed.

Lemma buildFileName_never (fuel : nat) :
  (forall k, existsSync (join path (probe k)) = true) ->
  buildFileName join existsSync fuel path name extension = None.
Proof.
  intros Hused. unfold buildFileName.
  pose proof (Hused 0%nat) as H0. simpl in H0. rewrite H0. simpl.
  apply buildFileName_loop_runs. intros i Hi.
  specialize (Hused (S (N.to_nat i - 2))). rewrite probeOrder_suffixed in Hused.
  by replace (N.of_nat (N.to_nat i - 2) + 2)%N with i in Hused by lia.
Qed.

Lemma probeOrder_1 : probe 1 = name +:+ "-2." +:+ extension.
Proof. reflexivity. Qed.

Lemma probeOrder_2 : probe 2 = name +:+ "-3." +:+ extension.
Proof. reflexivity. Qed.

(** The first two collisions. *)
Lemma buildFileName_second (fuel : nat) :
  existsSync (join path (name +:+ "." +:+ extension)) = true ->
  existsSync (join path (name +:+ "-2." +:+ extension)) = false ->
  (1 <= fuel)%nat ->
  buildFileName join existsSync fuel path name extension
  = Some (name +:+ "-2." +:+ extension).
Proof.
  intros H0 H1 Hfuel. rewrite <- probeOrder_1.
  apply buildFileName_first; [|done]. split; [done|].
  intros [|j] Hj; [done|lia].
Qed.

Lemma buildFileName_third (fuel : nat) :
  existsSync (join path (name +:+ "." +:+ extension)) = true ->
  existsSync (join path (name +:+ "-2." +:+ extension)) = true ->
  existsSync (join path (name +:+ "-3." +:+ extension)) = false ->
  (2 <= fuel)%nat ->
  buildFileName join existsSync fuel path name extension
  = Some (name +:+ "-3." +:+ extension).
Proof.
  intros H0 H1 H2 Hfuel. rewrite <- probeOrder_2.
  apply buildFileName_first; [|done]. split; [done|].
  intros [|[|j]] Hj; [done..|lia].
Qed.

End BuildFileNameProperties.

(** C5.  [buildFileName] returns the first candidate, in the order
    ["<name>.<ext>"], ["<name>-2.<ext>"], ["<name>-3.<ext>"], ... with the
    index growing by 1, that does not exist in the directory: when [k] is the
    first unused candidate the probes end, within [k] turns of the loop, with
    that candidate.  So when ["<name>.<ext>"] exists and ["<name>-2.<ext>"]
    does not, the result is ["<name>-2.<ext>"]; when both exist and
    ["<name>-3.<ext>"] does not, it is ["<name>-3.<ext>"]. *)
Theorem buildFileName_first_unused
    (join : string -> string -> string) (existsSync : string -> bool)
    (path name extension : string) (k fuel : nat) :
  firstUnused join existsSync path name extension k ->
  (k <= fuel)%nat ->
  buildFileName join existsSync fuel path name extension
  = Some (probeOrder name extension k)
  /\ probeOrder name extension 0 = name +:+ "." +:+ extension
  /\ probeOrder name extension 1 = name +:+ "-2." +:+ extension
  /\ probeOrder name extension 2 = name +:+ "-3." +:+ extension
  /\ (forall j, probeOrder name extension (S j)
                = name +:+ "-" +:+ pretty (N.of_nat j + 2)%N +:+ "." +:+ extension)
  /\ (existsSync (join path (name +:+ "." +:+ extension)) = true ->
      existsSync (join path (name +:+ "-2." +:+ extension)) = false ->
      buildFileName join existsSync 1 path name extension
      = Some (name +:+ "-2." +:+ extension))
  /\ (existsSync (join path (name +:+ "." +:+ extension)) = true ->
      existsSync (join path (name +:+ "-2." +:+ extension)) = true ->
      existsSync (join path (name +:+ "-3." +:+ extension)) = false ->
      buildFileName join existsSync 2 path name extension
      = Some (name +:+ "-3." +:+ extension)).
Proof.
  intros Hfirst Hfuel. split; [by apply buildFileName_first|].
  split; [done|]. split; [done|]. split; [done|].
  split; [apply probeOrder_suffixed|].
  split; [intros; by apply buildFileName_second|].
  intros; by apply buildFileName_third.
Qed.

(** C10.  When some candidate is unused the probe loop ends: there is a
    number of turns within which [buildFileName] returns, with any more fuel
    it returns the same name, and that name is the first unused candidate. *)
Theorem buildFileName_terminates
    (join : string -> string -> string) (existsSync : string -> bool)
    (path name extension : string) :
  (exists n, unused join existsSync path name extension n) ->
  exists fuel k,
    firstUnused join existsSync path name extension k
    /\ forall fuel', (fuel <= fuel')%nat ->
         buildFileName join existsSync fuel' path name extension
         = Some (probeOrder name extension k).
Proof.
  intros [n Hn].
  destruct (first_unused_below join existsSync path name extension n Hn)
    as (k & Hk & Hfirst).
  exists k, k. split; [done|]. intros fuel' Hfuel.
  by apply buildFileName_first.
Qed.

(** ** Downloads *)

Section DownloadProperties.

Variable join : string -> string -> string.
Variable w : World.
Variable fuel : nat.

(** A [try] block under the [catch] clause of the downloads: an exception
    becomes one failure notification, the last event, and the run returns. *)
Lemma tryCatch_onError (m : Prog unit) :
  tryCatch m onError
  = match m with
    | (t, Throws e) => (t ++ [Failure "Download Failed" (reported e)], Returns tt)
    | _ => m
    end.
Proof.
  destruct m as [t [a|e|]]; simpl; try done.
  unfold onError, reported, showFailureToast. by destruct (certHasExpired e).
Qed.



(** The folder selector returns, having opened one dialog at most. *)
Lemma chooseDownloadFolder_returns :
  exists t o, chooseDownloadFolder w = (t, Returns o)
              /\ (t = [] \/ t = [FolderDialog (platform w)]).
Proof.
  unfold chooseDownloadFolder.
  destruct (decide (platform w = "darwin")) as [_|_].
  - destruct (runAppleScript w) as [e|out]; simpl; eauto.
  - destruct (decide (platform w = "win32")) as [_|_]; [|simpl; eauto].
    destruct (execAsync w) as [e|out]; simpl; eauto.
Qed.

Lemma failures_app (t1 t2 : list Event) :
  failures (t1 ++ t2) = failures t1 ++ failures t2.
Proof. apply List.filter_app. Qed.


End DownloadProperties.

Lemma downloadBookToDefaultDirectory_run
    (join : string -> string -> string) (w : World) (fuel : nat)
    (url : string) (book : BookEntry) :
  downloadBookToDefaultDirectory join w fuel url book
  = match defaultDirectoryBody join w fuel url (fileNameFromBookEntry book)
            (JS.toLowerCase (extension book)) with
    | (t, Throws e) =>
        (Progress "Downloading..." true :: t
           ++ [Failure "Download Failed" (reported e)], Returns tt)
    | (t, o) => (Progress "Downloading..." true :: t, o)
    end.
Proof.
  unfold downloadBookToDefaultDirectory, showActionToast, emit, bind.
  rewrite tryCatch_onError.
  by destruct (defaultDirectoryBody _ _ _ _ _ _) as [t [[]|e|]].
Qed.

Lemma downloadBookToLocation_run
    (join : string -> string -> string) (w : World) (fuel : nat)
    (url : string) (book : BookEntry) (t0 : list Event) (o : option string) :
  chooseDownloadFolder w = (t0, Returns o) ->
  downloadBookToLocation join w fuel url book
  = if noFolder o then (t0, Returns tt)
    else match locationBody join w fuel url (default "" o)
                 (fileNameFromBookEntry book) (JS.toLowerCase (extension book)) with
         | (t, Throws e) =>
             (t0 ++ Progress "Downloading..." true :: t
                ++ [Failure "Download Failed" (reported e)], Returns tt)
         | (t, o') => (t0 ++ Progress "Downloading..." true :: t, o')
         end.
Proof.
  intros Hfolder. unfold downloadBookToLocation. rewrite Hfolder.
  unfold showActionToast, emit, bind. destruct (noFolder o); simpl.
  - by rewrite app_nil_r.
  - rewrite tryCatch_onError.
    by destruct (locationBody _ _ _ _ _ _ _) as [t [[]|e|]].
Qed.





(** C8.  When the folder selector returns no path (or an empty one) the
    operation on a chosen folder returns at once: the events of the run are
    those of the selector, none of them a progress indicator, a fetch, a
    write or a notification. *)
Theorem no_folder_no_download
    (join : string -> string -> string) (w : World) (fuel : nat)
    (url : string) (book : BookEntry) (t0 : list Event) (o : option string) :
  chooseDownloadFolder w = (t0, Returns o) ->
  noFolder o = true ->
  downloadBookToLocation join w fuel url book = (t0, Returns tt)
  /\ List.filter beyondDialog (downloadBookToLocation join w fuel url book).1 = []
  /\ fetches (downloadBookToLocation join w fuel url book).1 = []
  /\ failures (downloadBookToLocation join w fuel url book).1 = []
  /\ List.filter isWrite (downloadBookToLocation join w fuel url book).1 = []
  /\ List.filter isProgress (downloadBookToLocation join w fuel url book).1 = []
  /\ List.filter isSuccess (downloadBookToLocation join w fuel url book).1 = [].
Proof.
  intros Hfolder Hno.
  rewrite (downloadBookToLocation_run join w fuel url book t0 o Hfolder), Hno.
  destruct (chooseDownloadFolder_returns w) as (t0' & o' & Hfolder' & Ht0).
  rewrite Hfolder in Hfolder'. injection Hfolder' as <- <-.
  by destruct Ht0 as [-> | ->].
Qed.

(** * Further properties of the file names *)

Section BuildFileNameSoundness.

Variable join : string -> string -> string.
Variable existsSync : string -> bool.
Variables path name extension : string.

(** What the loop returns is the first unused candidate from [index] on. *)
Lemma buildFileName_loop_returns (fuel : nat) (index : N) (r : string) :
  buildFileName_loop join existsSync fuel path name extension index = Some r ->
  exists m, (m < fuel)%nat
    /\ r = name +:+ "-" +:+ pretty (index + N.of_nat m)%N +:+ "." +:+ extension
    /\ existsSync (join path r) = false
    /\ forall j, (j < m)%nat ->
         existsSync (join path (name +:+ "-" +:+ pretty (index + N.of_nat j)%N
                                  +:+ "." +:+ extension)) = true.
Proof.
  revert index. induction fuel as [|fuel IH]; intros index Hr; [done|].
  simpl in Hr.
  destruct (existsSync (join path (name +:+ "-" +:+ pretty index +:+ "."
                                     +:+ extension))) eqn:Hindex; simpl in Hr.
  - destruct (IH _ Hr) as (m & Hm & -> & Hfree & Hused).
    exists (S m). split; [lia|].
    replace (index + N.of_nat (S m))%N with (index + 1 + N.of_nat m)%N by lia.
    split; [done|]. split; [done|].
    intros [|j] Hj.
    + by rewrite N.add_0_r.
    + replace (index + N.of_nat (S j))%N with (index + 1 + N.of_nat j)%N by lia.
      apply Hused. lia.
  - injection Hr as <-. exists 0%nat. rewrite N.add_0_r.
    split; [lia|]. split; [done|]. split; [done|]. intros j Hj. lia.
Qed.

Lemma buildFileName_returns (fuel : nat) (r : string) :
  buildFileName join existsSync fuel path name extension = Some r ->
  exists k, (k <= fuel)%nat /\ r = probeOrder name extension k
            /\ firstUnused join existsSync path name extension k.
Proof.
  unfold buildFileName.
  destruct (existsSync (join path (name +:+ "." +:+ extension))) eqn:Hbase; simpl.
  - intros (m & Hm & -> & Hfree & Hused)%buildFileName_loop_returns.
    exists (S m). split; [lia|].
    assert (forall j, probeOrder name extension (S j)
                      = name +:+ "-" +:+ pretty (2 + N.of_nat j)%N +:+ "."
                        +:+ extension) as Hprobe.
    { intros j. unfold probeOrder.
      by replace (N.of_nat (S j + 1)) with (2 + N.of_nat j)%N by lia. }
    split; [by rewrite Hprobe|]. split.
    + unfold unused. by rewrite Hprobe.
    + intros [|j] Hj; [done|]. rewrite Hprobe. apply Hused. lia.
  - intros [= <-]. exists 0%nat. split; [lia|]. split; [done|].
    split; [done|]. intros j Hj. lia.
Qed.

End BuildFileNameSoundness.

(** With fewer turns than the rank of the first unused candidate the loop
    is still probing. *)
Lemma buildFileName_loop_short
    (join : string -> string -> string) (existsSync : string -> bool)
    (path name extension : string) (fuel : nat) (index : N) :
  (forall j, (j < fuel)%nat ->
     existsSync (join path (name +:+ "-" +:+ pretty (index + N.of_nat j)%N
                              +:+ "." +:+ extension)) = true) ->
  buildFileName_loop join existsSync fuel path name extension index = None.
Proof.
  revert index. induction fuel as [|fuel IH]; intros index Hused; [done|].
  simpl. pose proof (Hused 0%nat ltac:(lia)) as H0. rewrite N.add_0_r in H0.
  rewrite H0. simpl. apply IH. intros j Hj.
  replace (index + 1 + N.of_nat j)%N with (index + N.of_nat (S j))%N by lia.
  apply Hused. lia.
Qed.

Lemma buildFileName_short
    (join : string -> string -> string) (existsSync : string -> bool)
    (path name extension : string) (k fuel : nat) :
  firstUnused join existsSync path name extension k ->
  (fuel < k)%nat ->
  buildFileName join existsSync fuel path name extension = None.
Proof.
  intros [_ Hused] Hfuel. unfold buildFileName.
  pose proof (Hused 0%nat ltac:(lia)) as H0. simpl in H0. rewrite H0. simpl.
  apply buildFileName_loop_short. intros j Hj.
  specialize (Hused (S j) ltac:(lia)). unfold probeOrder in Hused.
  by replace (2 + N.of_nat j)%N with (N.of_nat (S j + 1)) by lia.
Qed.

(** X7.  A name [buildFileName] returns is not in use: it is a candidate of
    the probe order that does not exist in the directory, every candidate
    before it exists, and the loop takes the turns of its rank [k] and no
    more: the call returns the name with [k] turns or more, and with fewer
    it is still probing. *)
Theorem buildFileName_returns_unused_name
    (join : string -> string -> string) (existsSync : string -> bool)
    (path name extension : string) (fuel : nat) (r : string) :
  buildFileName join existsSync fuel path name extension = Some r ->
  existsSync (join path r) = false
  /\ exists k, (k <= fuel)%nat /\ r = probeOrder name extension k
       /\ (forall j, (j < k)%nat ->
             existsSync (join path (probeOrder name extension j)) = true)
       /\ (forall fuel', (k <= fuel')%nat ->
             buildFileName join existsSync fuel' path name extension = Some r)
       /\ (forall fuel', (fuel' < k)%nat ->
             buildFileName join existsSync fuel' path name extension = None).
Proof.
  intros (k & Hk & -> & Hfree & Hused)%buildFileName_returns.
  split; [exact Hfree|]. exists k.
  split; [done|]. split; [done|]. split; [done|]. split.
  - intros fuel' Hfuel'. by apply buildFileName_first.
  - intros fuel' Hfuel'. by apply (buildFileName_short _ _ _ _ _ k).
Qed.

(** X8.  The probe loop has no bound of its own: [buildFileName] returns
    for no number of turns exactly when every candidate of the probe order
    exists in the directory. *)
Theorem buildFileName_runs_forever_iff_all_used
    (join : string -> string -> string) (existsSync : string -> bool)
    (path name extension : string) :
  (forall fuel, buildFileName join existsSync fuel path name extension = None)
  <-> (forall k, existsSync (join path (probeOrder name extension k)) = true).
Proof.
  split.
  - intros Hnone k.
    destruct (existsSync (join path (probeOrder name extension k))) eqn:Hk; [done|].
    destruct (first_unused_below join existsSync path name extension k Hk)
      as (k' & _ & Hfirst).
    pose proof (buildFileName_first join existsSync path name extension k' k'
                  Hfirst (le_n k')) as Hsome.
    by rewrite Hnone in Hsome.
  - intros Hused fuel. by apply buildFileName_never.
Qed.

(** X9.  The name a download gets when nothing collides is the one
    [fileNameWithExtensionFromBookEntry] gives: [buildFileName], called as
    the downloads call it, returns that name exactly when it does not exist
    in the directory, and then without a turn of the loop. *)
Theorem uncollided_name_is_file_name_with_extension
    (join : string -> string -> string) (existsSync : string -> bool)
    (path : string) (book : BookEntry) :
  ((exists fuel,
       buildFileName join existsSync fuel path (fileNameFromBookEntry book)
         (JS.toLowerCase (extension book))
       = Some (fileNameWithExtensionFromBookEntry book))
   <-> existsSync (join path (fileNameWithExtensionFromBookEntry book)) = false)
  /\ (existsSync (join path (fileNameWithExtensionFromBookEntry book)) = false ->
      forall fuel,
        buildFileName join existsSync fuel path (fileNameFromBookEntry book)
          (JS.toLowerCase (extension book))
        = Some (fileNameWithExtensionFromBookEntry book)).
Proof.
  assert (existsSync (join path (fileNameWithExtensionFromBookEntry book)) = false ->
          forall fuel,
            buildFileName join existsSync fuel path (fileNameFromBookEntry book)
              (JS.toLowerCase (extension book))
            = Some (fileNameWithExtensionFromBookEntry book)) as Hfree.
  { intros Hno fuel. unfold buildFileName, fileNameWithExtensionFromBookEntry in *.
    by rewrite Hno. }
  split; [|exact Hfree]. split.
  - intros [fuel (k & _ & Hk & Hunused & _)%buildFileName_returns].
    unfold unused in Hunused. by rewrite Hk.
  - intros Hno. exists 0%nat. by apply Hfree.
Qed.

(** * Further properties of the downloads *)

(** ** The folder selector *)

(** An event that is none of the events of an explicit trace. *)
Ltac absent_from_trace H :=
  repeat (apply elem_of_cons in H as [H|H]; [discriminate H|]);
  by apply elem_of_nil in H.

Lemma chooseDownloadFolder_cases (w : World) :
  chooseDownloadFolder w
  = if decide (platform w = "darwin") then
      ([FolderDialog (platform w)],
       Returns (match runAppleScript w with
                | inr out => Some (JS.trim out)
                | inl _ => None
                end))
    else if decide (platform w = "win32") then
      ([FolderDialog (platform w)],
       Returns (match execAsync w with
                | inr stdout =>
                    if decide (JS.trim stdout = "") then None
                    else Some (JS.trim stdout)
                | inl _ => None
                end))
    else ([], Returns None).
Proof.
  unfold chooseDownloadFolder.
  destruct (decide (platform w = "darwin")) as [_|_].
  - by destruct (runAppleScript w).
  - destruct (decide (platform w = "win32")) as [_|_]; [|done].
    by destruct (execAsync w).
Qed.

(** X10.  The folder selector always returns, whatever its dialog does: a
    failed dialog is no path.  On a platform other than [darwin] and [win32]
    it opens no dialog and returns no path.  A path it returns is the
    trimmed output of the dialog of the platform, so it has no surrounding
    white space, and on [win32] it is not empty. *)
Theorem chooseDownloadFolder_returns_trimmed_path_or_null (w : World) :
  exists t o,
    chooseDownloadFolder w = (t, Returns o)
    /\ (platform w ≠ "darwin" -> platform w ≠ "win32" -> t = [] /\ o = None)
    /\ (platform w = "darwin" -> (exists e, runAppleScript w = inl e) -> o = None)
    /\ (platform w = "win32" -> (exists e, execAsync w = inl e) -> o = None)
    /\ forall p, o = Some p ->
         JS.trim p = p
         /\ t = [FolderDialog (platform w)]
         /\ ((platform w = "darwin"
              /\ exists out, runAppleScript w = inr out /\ p = JS.trim out)
             \/ (platform w = "win32" /\ p ≠ ""
                 /\ exists out, execAsync w = inr out /\ p = JS.trim out)).
Proof.
  rewrite chooseDownloadFolder_cases.
  destruct (decide (platform w = "darwin")) as [Hd|Hd].
  - eexists _, _. split; [reflexivity|]. split; [done|]. split; [|split].
    + by intros _ [e ->].
    + intros Hw. rewrite Hd in Hw. done.
    + intros p Hp. destruct (runAppleScript w) as [e|out]; [done|].
      injection Hp as <-. split; [apply JS.trim_idempotent|]. split; [done|].
      left. split; [done|]. by exists out.
  - destruct (decide (platform w = "win32")) as [Hw|Hw].
    + eexists _, _. split; [reflexivity|]. split; [done|]. split; [done|]. split.
      * by intros _ [e ->].
      * intros p Hp. destruct (execAsync w) as [e|out]; [done|].
        destruct (decide (JS.trim out = "")) as [|Hne]; [done|].
        injection Hp as <-. split; [apply JS.trim_idempotent|]. split; [done|].
        right. split; [done|]. split; [done|]. by exists out.
    + eexists _, _. split; [reflexivity|]. by repeat split.
Qed.

(** X11.  On a platform other than [darwin] and [win32] the download to a
    chosen folder does nothing at all: no dialog, no indicator, no fetch, no
    notification. *)
Theorem no_dialog_no_download
    (join : string -> string -> string) (w : World) (fuel : nat)
    (url : string) (book : BookEntry) :
  platform w ≠ "darwin" ->
  platform w ≠ "win32" ->
  downloadBookToLocation join w fuel url book = ([], Returns tt).
Proof.
  intros Hd Hw.
  assert (chooseDownloadFolder w = ([], Returns None)) as Hfolder.
  { rewrite chooseDownloadFolder_cases.
    destruct (decide (platform w = "darwin")); [done|].
    by destruct (decide (platform w = "win32")). }
  by rewrite (downloadBookToLocation_run join w fuel url book [] None Hfolder).
Qed.

(** X12.  The download to a chosen folder shows its progress indicator
    exactly when the dialog of the platform gave an output that is not
    blank: on [darwin] the script's, on [win32] the command's. *)
Theorem location_download_starts_iff_folder_picked
    (join : string -> string -> string) (w : World) (fuel : nat)
    (url : string) (book : BookEntry) :
  Progress "Downloading..." true ∈ (downloadBookToLocation join w fuel url book).1
  <-> (platform w = "darwin"
       /\ exists out, runAppleScript w = inr out /\ JS.trim out ≠ "")
      \/ (platform w = "win32"
          /\ exists out, execAsync w = inr out /\ JS.trim out ≠ "").
Proof.
  pose proof (chooseDownloadFolder_cases w) as Hcases. revert Hcases.
  destruct (decide (platform w = "darwin")) as [Hd|Hd];
    [|destruct (decide (platform w = "win32")) as [Hw|Hw]];
    intros Hcases;
    rewrite (downloadBookToLocation_run join w fuel url book _ _ Hcases).
  - rewrite Hd. destruct (runAppleScript w) as [e|out]; simpl.
    + split.
      * intros Hin. absent_from_trace Hin.
      * intros [(_ & out & Hout & _)|[Hw _]]; done.
    + case_bool_decide as Hout; simpl.
      * split.
        -- intros Hin. absent_from_trace Hin.
        -- intros [(_ & out' & [= <-] & Hne)|[Hw _]]; done.
      * split; [|intros _].
        -- intros _. left. split; [done|]. by exists out.
        -- destruct (locationBody _ _ _ _ _ _ _) as [t [[]|e'|]]; set_solver.
  - rewrite Hw. destruct (execAsync w) as [e|out]; simpl.
    + split.
      * intros Hin. absent_from_trace Hin.
      * intros [[Hd' _]|(_ & out & Hout & _)]; done.
    + destruct (decide (JS.trim out = "")) as [Hout|Hout]; simpl.
      * split.
        -- intros Hin. absent_from_trace Hin.
        -- intros [[Hd' _]|(_ & out' & [= <-] & Hne)]; done.
      * rewrite bool_decide_eq_false_2 by done.
        split; [|intros _].
        -- intros _. right. split; [done|]. by exists out.
        -- destruct (locationBody _ _ _ _ _ _ _) as [t [[]|e'|]]; set_solver.
  - simpl. split.
    + intros Hin. absent_from_trace Hin.
    + intros [[Hd' _]|[Hw' _]]; done.
Qed.

(** ** The two [try] blocks *)

Ltac in_trace H :=
  simpl in H; rewrite ?elem_of_cons, ?elem_of_nil in H; destruct_or ?;
  simplify_eq; try done.

Lemma defaultDirectoryBody_transfer
    (join : string -> string -> string) (w : World) (fuel : nat)
    (url name extension : string) :
  defaultDirectoryBody join w fuel url name extension
  = match buildFileName join (existsSync w) fuel (downloadPath w) name extension with
    | None => ([], Running)
    | Some fileName =>
        transfer w url (downloadPath w +:+ "/" +:+ fileName)
          ("Saved to " +:+ downloadPath w)
    end.
Proof.
  unfold defaultDirectoryBody, buildFileNameProg, fetchImageArrayBuffer, write,
    transfer.
  destruct (buildFileName _ _ _ _ _ _) as [fileName|]; simpl; [|done].
  destruct (fetch w url _) as [e|[[e|buffer]]]; simpl; try done.
  by destruct (writeFileSync w _ buffer) as [e|[]].
Qed.

Lemma locationBody_transfer
    (join : string -> string -> string) (w : World) (fuel : nat)
    (url outputFolder name extension : string) :
  locationBody join w fuel url outputFolder name extension
  = match buildFileName join (existsSync w) fuel outputFolder name extension with
    | None => ([], Running)
    | Some fileName =>
        transfer w url (join outputFolder fileName) ("Saved to " +:+ fileName)
    end.
Proof.
  unfold locationBody, buildFileNameProg, fetchImageArrayBuffer, write, transfer.
  destruct (buildFileName _ _ _ _ _ _) as [fileName|]; simpl; [|done].
  destruct (fetch w url _) as [e|[[e|buffer]]]; simpl; try done.
  by destruct (writeFileSync w _ buffer) as [e|[]].
Qed.

(** A file is written only with what a successful fetch gave. *)
Lemma transfer_write (w : World) (url filePath message p d : string) :
  WriteFile p d ∈ (transfer w url filePath message).1 ->
  p = filePath
  /\ exists res, fetch w url (negb (allowIgnoreHTTPSErrors w)) = inr res
                 /\ arrayBuffer res = inr d.
Proof.
  unfold transfer.
  destruct (fetch w url _) as [e|[[e|buffer]]] eqn:Hfetch; simpl;
    [intros H; in_trace H..|].
  destruct (writeFileSync w filePath buffer) as [e|[]]; simpl;
    intros H; in_trace H; (split; [done|]); by eexists.
Qed.

(** Success is announced only after the write went through. *)
Lemma transfer_success (w : World) (url filePath message m o s : string) :
  Success m o s ∈ (transfer w url filePath message).1 ->
  m = message /\ o = filePath /\ s = filePath
  /\ (transfer w url filePath message).2 = Returns tt
  /\ exists d, WriteFile filePath d ∈ (transfer w url filePath message).1
               /\ writeFileSync w filePath d = inr tt.
Proof.
  unfold transfer.
  destruct (fetch w url _) as [e|[[e|buffer]]] eqn:Hfetch; simpl;
    [intros H; in_trace H..|].
  destruct (writeFileSync w filePath buffer) as [e|[]] eqn:Hwrite; simpl;
    intros H; in_trace H.
  repeat split; try done. exists buffer. split; [|done]. set_solver.
Qed.

(** The events of a transfer by kind. *)
Lemma transfer_events (w : World) (url filePath message : string) :
  List.filter isProgress (transfer w url filePath message).1 = []
  /\ failures (transfer w url filePath message).1 = []
  /\ (forall ev, ev ∈ (transfer w url filePath message).1 -> isFetch ev = true ->
        ev = Fetch url (negb (allowIgnoreHTTPSErrors w)))
  /\ length (List.filter isTerminal (transfer w url filePath message).1)
     = match (transfer w url filePath message).2 with
       | Returns _ => 1%nat
       | _ => 0%nat
       end
  /\ (transfer w url filePath message).2 ≠ Running.
Proof.
  unfold transfer.
  destruct (fetch w url _) as [e|[[e|buffer]]]; simpl;
    [repeat split; try done; intros ev H; in_trace H; done..|].
  destruct (writeFileSync w filePath buffer) as [e|[]]; simpl;
    repeat split; try done; intros ev H; in_trace H; done.
Qed.

(** ** Runs of the two downloads *)

Lemma downloadBookToDefaultDirectory_transfer
    (join : string -> string -> string) (w : World) (fuel : nat)
    (url : string) (book : BookEntry) :
  downloadBookToDefaultDirectory join w fuel url book
  = match buildFileName join (existsSync w) fuel (downloadPath w)
            (fileNameFromBookEntry book) (JS.toLowerCase (extension book)) with
    | None => ([Progress "Downloading..." true], Running)
    | Some fileName =>
        match transfer w url (downloadPath w +:+ "/" +:+ fileName)
                ("Saved to " +:+ downloadPath w) with
        | (t, Throws e) =>
            (Progress "Downloading..." true :: t
               ++ [Failure "Download Failed" (reported e)], Returns tt)
        | (t, o) => (Progress "Downloading..." true :: t, o)
        end
    end.
Proof.
  rewrite downloadBookToDefaultDirectory_run, defaultDirectoryBody_transfer.
  by destruct (buildFileName _ _ _ _ _ _).
Qed.

Lemma downloadBookToLocation_transfer
    (join : string -> string -> string) (w : World) (fuel : nat)
    (url : string) (book : BookEntry) (t0 : list Event) (folder : string) :
  chooseDownloadFolder w = (t0, Returns (Some folder)) ->
  folder ≠ "" ->
  downloadBookToLocation join w fuel url book
  = match buildFileName join (existsSync w) fuel folder
            (fileNameFromBookEntry book) (JS.toLowerCase (extension book)) with
    | None => (t0 ++ [Progress "Downloading..." true], Running)
    | Some fileName =>
        match transfer w url (join folder fileName) ("Saved to " +:+ fileName) with
        | (t, Throws e) =>
            (t0 ++ Progress "Downloading..." true :: t
               ++ [Failure "Download Failed" (reported e)], Returns tt)
        | (t, o) => (t0 ++ Progress "Downloading..." true :: t, o)
        end
    end.
Proof.
  intros Hfolder Hne.
  rewrite (downloadBookToLocation_run join w fuel url book t0 _ Hfolder).
  simpl. rewrite bool_decide_eq_false_2 by done.
  rewrite locationBody_transfer.
  by destruct (buildFileName _ _ _ _ _ _).
Qed.

(** The run of the download to a chosen folder when no folder is chosen. *)
Lemma downloadBookToLocation_no_folder
    (join : string -> string -> string) (w : World) (fuel : nat)
    (url : string) (book : BookEntry) :
  (exists t0 folder, chooseDownloadFolder w = (t0, Returns (Some folder))
                     /\ folder ≠ "")
  \/ (downloadBookToLocation join w fuel url book).2 = Returns tt
     /\ forall ev, ev ∈ (downloadBookToLocation join w fuel url book).1 ->
          ev = FolderDialog (platform w).
Proof.
  destruct (chooseDownloadFolder_returns w) as (t0 & o & Hfolder & Ht0).
  destruct (noFolder o) eqn:Hno.
  - right. rewrite (downloadBookToLocation_run join w fuel url book t0 o Hfolder), Hno.
    split; [done|]. intros ev Hev. simpl in Hev.
    destruct Ht0 as [-> | ->]; in_trace Hev; done.
  - left. destruct o as [folder|]; [|done]. exists t0, folder. split; [done|].
    simpl in Hno. by apply bool_decide_eq_false in Hno.
Qed.

(** X13.  The download to the default directory, when the file name is
    found, the fetch gives a body and the write goes through, is the
    progress indicator, the fetch, the write of the body to
    ["<downloadPath>/<fileName>"] and the success notification naming the
    directory, whose two actions open that file. *)
Theorem default_directory_download_succeeds
    (join : string -> string -> string) (w : World) (fuel : nat)
    (url : string) (book : BookEntry)
    (fileName : string) (res : Response) (data : string) :
  buildFileName join (existsSync w) fuel (downloadPath w)
    (fileNameFromBookEntry book) (JS.toLowerCase (extension book)) = Some fileName ->
  fetch w url (negb (allowIgnoreHTTPSErrors w)) = inr res ->
  arrayBuffer res = inr data ->
  writeFileSync w (downloadPath w +:+ "/" +:+ fileName) data = inr tt ->
  downloadBookToDefaultDirectory join w fuel url book
  = ([Progress "Downloading..." true;
      Fetch url (negb (allowIgnoreHTTPSErrors w));
      WriteFile (downloadPath w +:+ "/" +:+ fileName) data;
      Success ("Saved to " +:+ downloadPath w)
        (downloadPath w +:+ "/" +:+ fileName) (downloadPath w +:+ "/" +:+ fileName)],
     Returns tt).
Proof.
  intros Hname Hfetch Hbody Hwrite.
  rewrite downloadBookToDefaultDirectory_transfer, Hname.
  unfold transfer. by rewrite Hfetch, Hbody, Hwrite.
Qed.

(** X14.  The download to a chosen folder, when the selector gives a
    folder, the file name is found, the fetch gives a body and the write
    goes through, is the events of the selector, the progress indicator, the
    fetch, the write of the body to [join(folder, fileName)] and the success
    notification naming the file. *)
Theorem location_download_succeeds
    (join : string -> string -> string) (w : World) (fuel : nat)
    (url : string) (book : BookEntry) (t0 : list Event)
    (folder fileName : string) (res : Response) (data : string) :
  chooseDownloadFolder w = (t0, Returns (Some folder)) ->
  folder ≠ "" ->
  buildFileName join (existsSync w) fuel folder
    (fileNameFromBookEntry book) (JS.toLowerCase (extension book)) = Some fileName ->
  fetch w url (negb (allowIgnoreHTTPSErrors w)) = inr res ->
  arrayBuffer res = inr data ->
  writeFileSync w (join folder fileName) data = inr tt ->
  downloadBookToLocation join w fuel url book
  = (t0 ++ [Progress "Downloading..." true;
            Fetch url (negb (allowIgnoreHTTPSErrors w));
            WriteFile (join folder fileName) data;
            Success ("Saved to " +:+ fileName)
              (join folder fileName) (join folder fileName)],
     Returns tt).
Proof.
  intros Hfolder Hne Hname Hfetch Hbody Hwrite.
  rewrite (downloadBookToLocation_transfer join w fuel url book t0 folder Hfolder Hne).
  rewrite Hname. unfold transfer. by rewrite Hfetch, Hbody, Hwrite.
Qed.

(** An event of a run of the downloads that is neither the indicator nor
    the failure notification is an event of the transfer. *)
Lemma in_caught_transfer (t : list Event) (o : Outcome unit) (ev : Event)
    (prefix : list Event) :
  ev ∈ (match (t, o) with
        | (t, Throws e) =>
            (prefix ++ Progress "Downloading..." true :: t
               ++ [Failure "Download Failed" (reported e)], Returns tt)
        | (t, o) => (prefix ++ Progress "Downloading..." true :: t, o)
        end).1 ->
  ev ∈ prefix \/ ev = Progress "Downloading..." true \/ ev ∈ t
  \/ exists e, o = Throws e /\ ev = Failure "Download Failed" (reported e).
Proof.
  destruct o as [[]|e|]; simpl; rewrite elem_of_app, elem_of_cons;
    rewrite ?elem_of_app, ?list_elem_of_singleton; intros Hin;
    destruct_or ?; eauto 6.
Qed.

(** X15.  The download to the default directory writes a file only with the
    body a successful fetch gave, and only at ["<downloadPath>/<fileName>"]
    for the name [buildFileName] returned, a name [existsSync] found unused
    under [join(downloadPath, fileName)]. *)
Theorem default_directory_writes_fetched_body
    (join : string -> string -> string) (w : World) (fuel : nat)
    (url : string) (book : BookEntry) (p d : string) :
  WriteFile p d ∈ (downloadBookToDefaultDirectory join w fuel url book).1 ->
  exists fileName res,
    buildFileName join (existsSync w) fuel (downloadPath w)
      (fileNameFromBookEntry book) (JS.toLowerCase (extension book)) = Some fileName
    /\ p = downloadPath w +:+ "/" +:+ fileName
    /\ existsSync w (join (downloadPath w) fileName) = false
    /\ fetch w url (negb (allowIgnoreHTTPSErrors w)) = inr res
    /\ arrayBuffer res = inr d.
Proof.
  rewrite downloadBookToDefaultDirectory_transfer.
  destruct (buildFileName _ _ _ _ _ _) as [fileName|] eqn:Hname;
    [|intros H; in_trace H].
  destruct (transfer w url _ _) as [t o] eqn:Ht. intros Hin.
  apply (in_caught_transfer t o _ []) in Hin
    as [Hin|[Hin|[Hin|(e & _ & Hin)]]]; [in_trace Hin|done| |done].
  pose proof (transfer_write w url (downloadPath w +:+ "/" +:+ fileName)
                ("Saved to " +:+ downloadPath w) p d) as Hwrite.
  rewrite Ht in Hwrite. destruct (Hwrite Hin) as (-> & res & Hfetch & Hbody).
  exists fileName, res. split; [done|]. split; [done|].
  split; [|done].
  by apply buildFileName_returns in Hname as (k & _ & -> & Hfree & _).
Qed.

(** X16.  The download to a chosen folder writes at the path it probed:
    the path it writes is [join(folder, fileName)] for the folder the
    selector gave and the name [buildFileName] returned, a path that
    [existsSync] answered unused when [buildFileName] probed it, before the
    fetch; the path is not probed again before the write, and what is
    written is the body a successful fetch gave. *)
Theorem location_download_writes_probed_path
    (join : string -> string -> string) (w : World) (fuel : nat)
    (url : string) (book : BookEntry) (p d : string) :
  WriteFile p d ∈ (downloadBookToLocation join w fuel url book).1 ->
  existsSync w p = false
  /\ exists t0 folder fileName res,
       chooseDownloadFolder w = (t0, Returns (Some folder))
       /\ folder ≠ ""
       /\ buildFileName join (existsSync w) fuel folder
            (fileNameFromBookEntry book) (JS.toLowerCase (extension book))
          = Some fileName
       /\ p = join folder fileName
       /\ fetch w url (negb (allowIgnoreHTTPSErrors w)) = inr res
       /\ arrayBuffer res = inr d.
Proof.
  destruct (downloadBookToLocation_no_folder join w fuel url book)
    as [(t0 & folder & Hfolder & Hne)|[_ Hdialog]];
    [|by intros Hin%Hdialog].
  rewrite (downloadBookToLocation_transfer join w fuel url book t0 folder Hfolder Hne).
  assert (forall ev, ev ∈ t0 -> ev = FolderDialog (platform w)) as Ht0.
  { destruct (chooseDownloadFolder_returns w) as (t0' & o' & Hfolder' & Ht0).
    rewrite Hfolder in Hfolder'. injection Hfolder' as <- _.
    intros ev Hev. destruct Ht0 as [-> | ->]; in_trace Hev; done. }
  destruct (buildFileName _ _ _ _ _ _) as [fileName|] eqn:Hname.
  - destruct (transfer w url _ _) as [t o] eqn:Ht. intros Hin.
    apply (in_caught_transfer t o _ t0) in Hin
      as [Hin%Ht0|[Hin|[Hin|(e & _ & Hin)]]]; [done|done| |done].
    pose proof (transfer_write w url (join folder fileName)
                  ("Saved to " +:+ fileName) p d) as Hwrite.
    rewrite Ht in Hwrite. destruct (Hwrite Hin) as (-> & res & Hfetch & Hbody).
    split.
    + by apply buildFileName_returns in Hname as (k & _ & -> & Hfree & _).
    + by exists t0, folder, fileName, res.
  - simpl. rewrite elem_of_app, list_elem_of_singleton.
    intros [Hin%Ht0|Hin]; done.
Qed.

(** The events of the folder selector are openings of its dialog. *)
Lemma chooseDownloadFolder_events (w : World) (t0 : list Event) (o : option string) :
  chooseDownloadFolder w = (t0, Returns o) ->
  List.filter isProgress t0 = [] /\ List.filter isTerminal t0 = []
  /\ fetches t0 = []
  /\ forall ev, ev ∈ t0 -> ev = FolderDialog (platform w).
Proof.
  intros Hfolder.
  destruct (chooseDownloadFolder_returns w) as (t0' & o' & Hfolder' & Ht0).
  rewrite Hfolder in Hfolder'. injection Hfolder' as <- _.
  destruct Ht0 as [-> | ->]; repeat split; try done; intros ev Hev; in_trace Hev.
Qed.

(** X17.  A success notification comes only after the write went through:
    in a run of either download that shows one, the run returns, no failure
    is notified, the two actions of the notification open one and the same
    path, and the run wrote that path without an error.  The message names
    the download directory, or, for a chosen folder, the file. *)
Theorem success_is_notified_after_the_write
    (join : string -> string -> string) (w : World) (fuel : nat)
    (url : string) (book : BookEntry) :
  (forall m o s,
      Success m o s ∈ (downloadBookToDefaultDirectory join w fuel url book).1 ->
      (downloadBookToDefaultDirectory join w fuel url book).2 = Returns tt
      /\ failures (downloadBookToDefaultDirectory join w fuel url book).1 = []
      /\ m = "Saved to " +:+ downloadPath w
      /\ o = s
      /\ exists d,
           WriteFile o d ∈ (downloadBookToDefaultDirectory join w fuel url book).1
           /\ writeFileSync w o d = inr tt)
  /\ (forall m o s,
      Success m o s ∈ (downloadBookToLocation join w fuel url book).1 ->
      (downloadBookToLocation join w fuel url book).2 = Returns tt
      /\ failures (downloadBookToLocation join w fuel url book).1 = []
      /\ (exists folder fileName, o = join folder fileName
                                  /\ m = "Saved to " +:+ fileName)
      /\ o = s
      /\ exists d,
           WriteFile o d ∈ (downloadBookToLocation join w fuel url book).1
           /\ writeFileSync w o d = inr tt).
Proof.
  split; intros m o s.
  - rewrite downloadBookToDefaultDirectory_transfer.
    destruct (buildFileName _ _ _ _ _ _) as [fileName|] eqn:Hname;
      [|intros H; in_trace H].
    pose proof (transfer_success w url (downloadPath w +:+ "/" +:+ fileName)
                  ("Saved to " +:+ downloadPath w) m o s) as Hsuccess.
    pose proof (transfer_events w url (downloadPath w +:+ "/" +:+ fileName)
                  ("Saved to " +:+ downloadPath w)) as (_ & Hfail & _).
    destruct (transfer w url _ _) as [t r] eqn:Ht. simpl in Hsuccess, Hfail.
    intros Hin.
    apply (in_caught_transfer t r _ []) in Hin
      as [Hin|[Hin|[Hin|(e & _ & Hin)]]]; [in_trace Hin|done| |done].
    destruct (Hsuccess Hin) as (-> & -> & -> & -> & d & Hd & Hwrite).
    simpl. split; [done|]. split; [exact Hfail|]. split; [done|]. split; [done|].
    exists d. split; [by right|done].
  - destruct (downloadBookToLocation_no_folder join w fuel url book)
      as [(t0 & folder & Hfolder & Hne)|[_ Hdialog]];
      [|by intros Hin%Hdialog].
    rewrite (downloadBookToLocation_transfer join w fuel url book t0 folder Hfolder Hne).
    destruct (chooseDownloadFolder_events w t0 _ Hfolder) as (_ & Hterm0 & _ & Ht0).
    assert (failures t0 = []) as Hfail0.
    { clear -Ht0. induction t0 as [|ev t0 IH]; [done|].
      unfold failures. simpl. rewrite (Ht0 ev) by left. simpl.
      apply IH. intros ev' Hev'. apply Ht0. by right. }
    destruct (buildFileName _ _ _ _ _ _) as [fileName|] eqn:Hname.
    + pose proof (transfer_success w url (join folder fileName)
                    ("Saved to " +:+ fileName) m o s) as Hsuccess.
      pose proof (transfer_events w url (join folder fileName)
                    ("Saved to " +:+ fileName)) as (_ & Hfail & _).
      destruct (transfer w url _ _) as [t r] eqn:Ht. simpl in Hsuccess, Hfail.
      intros Hin.
      apply (in_caught_transfer t r _ t0) in Hin
        as [Hin%Ht0|[Hin|[Hin|(e & _ & Hin)]]]; [done|done| |done].
      destruct (Hsuccess Hin) as (-> & -> & -> & -> & d & Hd & Hwrite).
      simpl. split; [done|]. split.
      { rewrite failures_app. simpl. by rewrite Hfail0, Hfail. }
      split; [by exists folder, fileName|]. split; [done|].
      exists d. split; [|done]. apply elem_of_app. right. by right.
    + simpl. rewrite elem_of_app, list_elem_of_singleton.
      intros [Hin%Ht0|Hin]; done.
Qed.

(** X18.  One indicator, one outcome.  A run of the download to the default
    directory shows exactly one progress indicator; when it returns it has
    shown exactly one terminal notification, a success or a failure, and
    while it is still probing for a name it has shown none.  A run of the
    download to a chosen folder that returns has shown as many terminal
    notifications as progress indicators, one at most. *)
Theorem one_indicator_one_outcome
    (join : string -> string -> string) (w : World) (fuel : nat)
    (url : string) (book : BookEntry) :
  (length (List.filter isProgress
             (downloadBookToDefaultDirectory join w fuel url book).1) = 1%nat
   /\ ((downloadBookToDefaultDirectory join w fuel url book).2 = Returns tt ->
       length (List.filter isTerminal
                 (downloadBookToDefaultDirectory join w fuel url book).1) = 1%nat)
   /\ ((downloadBookToDefaultDirectory join w fuel url book).2 = Running ->
       (downloadBookToDefaultDirectory join w fuel url book).1
       = [Progress "Downloading..." true]))
  /\ ((length (List.filter isProgress
                 (downloadBookToLocation join w fuel url book).1) <= 1)%nat
      /\ ((downloadBookToLocation join w fuel url book).2 = Returns tt ->
          length (List.filter isTerminal
                    (downloadBookToLocation join w fuel url book).1)
          = length (List.filter isProgress
                      (downloadBookToLocation join w fuel url book).1))).
Proof.
  split.
  - rewrite downloadBookToDefaultDirectory_transfer.
    destruct (buildFileName _ _ _ _ _ _) as [fileName|]; [|done].
    pose proof (transfer_events w url (downloadPath w +:+ "/" +:+ fileName)
                  ("Saved to " +:+ downloadPath w))
      as (Hprog & _ & _ & Hterm & Hrun).
    destruct (transfer w url _ _) as [t [[]|e|]]; simpl in *;
      rewrite ?List.filter_app, ?length_app, ?Hprog, ?Hterm; simpl; done.
  - destruct (chooseDownloadFolder_returns w) as (t0 & o & Hfolder & _).
    destruct (chooseDownloadFolder_events w t0 o Hfolder) as (Hprog0 & Hterm0 & _).
    destruct (noFolder o) eqn:Hno.
    { rewrite (downloadBookToLocation_run join w fuel url book t0 o Hfolder), Hno.
      simpl. rewrite Hprog0, Hterm0. split; [simpl; lia|done]. }
    destruct o as [folder|]; [|done].
    simpl in Hno. apply bool_decide_eq_false in Hno.
    rewrite (downloadBookToLocation_transfer join w fuel url book t0 folder Hfolder Hno).
    destruct (buildFileName _ _ _ _ _ _) as [fileName|].
    + pose proof (transfer_events w url (join folder fileName)
                    ("Saved to " +:+ fileName))
        as (Hprog & _ & _ & Hterm & Hrun).
      destruct (transfer w url _ _) as [t [[]|e|]]; simpl in *;
        rewrite !List.filter_app, Hprog0, Hterm0; simpl;
        rewrite ?List.filter_app, ?length_app, ?Hprog, ?Hterm; simpl;
        (split; [lia|done]).
    + simpl. rewrite !List.filter_app, Hprog0, Hterm0. simpl.
      split; [lia|done].
Qed.

(** X19.  Every fetch of a download asks for the address it was given and
    verifies certificates unless the preference [allowIgnoreHTTPSErrors] is
    set. *)
Theorem fetches_follow_the_tls_preference
    (join : string -> string -> string) (w : World) (fuel : nat)
    (url : string) (book : BookEntry) :
  (forall ev, ev ∈ (downloadBookToDefaultDirectory join w fuel url book).1 ->
      isFetch ev = true -> ev = Fetch url (negb (allowIgnoreHTTPSErrors w)))
  /\ (forall ev, ev ∈ (downloadBookToLocation join w fuel url book).1 ->
      isFetch ev = true -> ev = Fetch url (negb (allowIgnoreHTTPSErrors w))).
Proof.
  split; intros ev.
  - rewrite downloadBookToDefaultDirectory_transfer.
    destruct (buildFileName _ _ _ _ _ _) as [fileName|];
      [|intros H; in_trace H].
    pose proof (transfer_events w url (downloadPath w +:+ "/" +:+ fileName)
                  ("Saved to " +:+ downloadPath w)) as (_ & _ & Hfetch & _).
    destruct (transfer w url _ _) as [t r]. simpl in Hfetch. intros Hin.
    apply (in_caught_transfer t r _ []) in Hin
      as [Hin|[->|[Hin|(e & _ & ->)]]]; [in_trace Hin|done|by apply Hfetch|done].
  - destruct (downloadBookToLocation_no_folder join w fuel url book)
      as [(t0 & folder & Hfolder & Hne)|[_ Hdialog]];
      [|by intros ->%Hdialog].
    rewrite (downloadBookToLocation_transfer join w fuel url book t0 folder Hfolder Hne).
    destruct (chooseDownloadFolder_events w t0 _ Hfolder) as (_ & _ & _ & Ht0).
    destruct (buildFileName _ _ _ _ _ _) as [fileName|].
    + pose proof (transfer_events w url (join folder fileName)
                    ("Saved to " +:+ fileName)) as (_ & _ & Hfetch & _).
      destruct (transfer w url _ _) as [t r]. simpl in Hfetch. intros Hin.
      apply (in_caught_transfer t r _ t0) in Hin
        as [->%Ht0|[->|[Hin|(e & _ & ->)]]]; [done|done|by apply Hfetch|done].
    + simpl. rewrite elem_of_app, list_elem_of_singleton.
      intros [->%Ht0| ->]; done.
Qed.

(** X20.  A directory that holds every candidate name hangs the download:
    whatever the number of turns, the run of the download to the default
    directory is the progress indicator and nothing else, with no fetch and
    no notification, and it has not returned. *)
Theorem full_directory_hangs_the_download
    (join : string -> string -> string) (w : World) (fuel : nat)
    (url : string) (book : BookEntry) :
  (forall k, existsSync w (join (downloadPath w)
                             (probeOrder (fileNameFromBookEntry book)
                                (JS.toLowerCase (extension book)) k)) = true) ->
  downloadBookToDefaultDirectory join w fuel url book
  = ([Progress "Downloading..." true], Running).
Proof.
  intros Hused. rewrite downloadBookToDefaultDirectory_transfer.
  by rewrite buildFileName_never.
Qed.

(** X21.  A failure notification of a download is titled
    ["Download Failed"] and never carries a fetch error of code
    [CERT_HAS_EXPIRED]: that error is always replaced by the remediation
    message. *)
Theorem failure_notifications_never_show_the_expired_certificate
    (join : string -> string -> string) (w : World) (fuel : nat)
    (url : string) (book : BookEntry) :
  (forall title e,
      Failure title e ∈ (downloadBookToDefaultDirectory join w fuel url book).1 ->
      title = "Download Failed" /\ certHasExpired e = false)
  /\ (forall title e,
      Failure title e ∈ (downloadBookToLocation join w fuel url book).1 ->
      title = "Download Failed" /\ certHasExpired e = false).
Proof.
  assert (forall e, certHasExpired (reported e) = false) as Hreported.
  { intros e. unfold reported. by destruct (certHasExpired e) eqn:He. }
  assert (forall (t : list Event) title e,
            failures t = [] -> Failure title e ∈ t -> False) as Hnone.
  { intros t title e Hf Hin. apply list_elem_of_In in Hin.
    assert (In (Failure title e) (failures t)) as Hin'
      by (by apply filter_In).
    by rewrite Hf in Hin'. }
  split; intros title e.
  - rewrite downloadBookToDefaultDirectory_transfer.
    destruct (buildFileName _ _ _ _ _ _) as [fileName|];
      [|intros H; in_trace H].
    pose proof (transfer_events w url (downloadPath w +:+ "/" +:+ fileName)
                  ("Saved to " +:+ downloadPath w)) as (_ & Hfail & _).
    destruct (transfer w url _ _) as [t r]. simpl in Hfail. intros Hin.
    apply (in_caught_transfer t r _ []) in Hin
      as [Hin|[Hin|[Hin|(e' & _ & Hin)]]];
      [in_trace Hin|done|by destruct (Hnone t title e)|].
    injection Hin as -> ->. by split.
  - destruct (downloadBookToLocation_no_folder join w fuel url book)
      as [(t0 & folder & Hfolder & Hne)|[_ Hdialog]];
      [|by intros Hin%Hdialog].
    rewrite (downloadBookToLocation_transfer join w fuel url book t0 folder Hfolder Hne).
    destruct (chooseDownloadFolder_events w t0 _ Hfolder) as (_ & _ & _ & Ht0).
    destruct (buildFileName _ _ _ _ _ _) as [fileName|].
    + pose proof (transfer_events w url (join folder fileName)
                    ("Saved to " +:+ fileName)) as (_ & Hfail & _).
      destruct (transfer w url _ _) as [t r]. simpl in Hfail. intros Hin.
      apply (in_caught_transfer t r _ t0) in Hin
        as [Hin%Ht0|[Hin|[Hin|(e' & _ & Hin)]]];
        [done|done|by destruct (Hnone t title e)|].
      injection Hin as -> ->. by split.
    + simpl. rewrite elem_of_app, list_elem_of_singleton.
      intros [Hin%Ht0|Hin]; done.
Qed.

(** X23.  Only the name part of a file name is cleaned of slashes: the
    extension is appended in lower case as it is, so the name with extension
    holds a slash exactly when the extension of the book holds one.  On an
    ASCII extension lower case changes the letters [A] to [Z] only. *)
Theorem file_name_with_extension_keeps_extension_slashes (book : BookEntry) :
  chars (fileNameWithExtensionFromBookEntry book)
  = chars (fileNameFromBookEntry book) ++ "."%char
      :: chars (JS.toLowerCase (extension book))
  /\ (JS.isAscii (extension book) = true ->
      chars (JS.toLowerCase (extension book))
      = map JS.lower (chars (extension book)))
  /\ ("/"%char ∈ chars (fileNameWithExtensionFromBookEntry book)
      <-> "/"%char ∈ chars (extension book)).
Proof.
  assert (chars (fileNameWithExtensionFromBookEntry book)
          = chars (fileNameFromBookEntry book) ++ "."%char
              :: chars (JS.toLowerCase (extension book))) as Hchars.
  { unfold fileNameWithExtensionFromBookEntry. by rewrite !chars_append. }
  split; [exact Hchars|]. split.
  { intros Hascii. by rewrite JS.toLowerCase_ascii, chars_asciiToLowerCase. }
  rewrite Hchars, elem_of_app, elem_of_cons. split.
  - intros [Hname|[Hdot|Hext]].
    + unfold fileNameFromBookEntry in Hname. by apply deleteAll_clean in Hname.
    + done.
    + apply list_elem_of_In in Hext.
      apply (proj1 (JS.toLowerCase_slash _)) in Hext. by apply list_elem_of_In.
  - intros Hext. right. right.
    apply list_elem_of_In, (proj2 (JS.toLowerCase_slash _)). by apply list_elem_of_In.
Qed.

End FileNamesAndDownloads.

(** * The model and the theorems at the sample data

    The runs below are runs of the engine of ASCII strings and insertion
    sort; their inputs are ASCII strings. *)

#[local] Existing Instance asciiEngine.

Example parse_preference :
  parseLowerCaseArray " French , English,," = ["french"; "english"].
Proof. reflexivity. Qed.

Example parse_blank : parseLowerCaseArray "  " = [].
Proof. reflexivity. Qed.

Example format_weights :
  map (weightOf (formatWeights "epub, pdf")) ["epub"; "pdf"; "mobi"]
  = [JS.number 2; JS.number 1; JS.number 0].
Proof. reflexivity. Qed.

Example language_weights_skip_unsupported :
  map (weightOf (languageWeights Sample.languages "Klingon, German, french"))
    ["klingon"; "german"; "french"]
  = [JS.number 0; JS.number 2; JS.number 1].
Proof. reflexivity. Qed.

Example inherited_weights :
  map (weightOf (formatWeights "constructor, __proto__, pdf"))
    ["constructor"; "__proto__"; "pdf"; "toString"; "mobi"]
  = [JS.number 3; JS.member "__proto__"; JS.number 1; JS.member "toString";
     JS.number 0].
Proof. reflexivity. Qed.

Example shelf_by_format :
  (sortBooksByPreferredFileFormats 1%positive "epub, pdf" Sample.σ).1 !! 1%positive
  = Some [Sample.german; Sample.english; Sample.bilingual].
Proof. reflexivity. Qed.

Example shelf_by_language :
  (sortBooksByPreferredLanguages Sample.languages 1%positive "German" Sample.σ).1
    !! 1%positive
  = Some [Sample.german; Sample.english; Sample.bilingual].
Proof. reflexivity. Qed.

Example chained_shelf :
  (sortBooksByPreferredFileFormats 1%positive "pdf"
     (sortBooksByPreferredLanguages Sample.languages 1%positive "French" Sample.σ).1).1
    !! 1%positive
  = Some [Sample.bilingual; Sample.english; Sample.german].
Proof. reflexivity. Qed.

(** The ranker does not change the case of the extension, and the tokens
    of the table are lowercase: a raw ["PDF"] is not found. *)
Example uppercase_extension_unranked :
  formatScore (formatWeights "pdf, epub") (mkBook "" "" "" "" "PDF" "") = JS.number 0
  /\ formatScore (formatWeights "pdf, epub") (mkBook "" "" "" "" "pdf" "") = JS.number 2.
Proof. split; reflexivity. Qed.

(** A sort that reads [NaN] as no reason to move a book leaves a book of
    extension ["constructor"] before a book of the one preferred format. *)
Example inherited_extension_stays_first :
  (sortBooksByPreferredFileFormats 1%positive "pdf"
     {[ 1%positive := [Cases.inherited; Sample.english] ]}).1 !! 1%positive
  = Some [Cases.inherited; Sample.english]
  /\ formatScore (formatWeights "pdf") Sample.english = JS.number 1.
Proof. split; reflexivity. Qed.

(** It leaves a book of language ["English, constructor"] behind a book of
    no preferred language. *)
Example inherited_language_stays_last :
  (sortBooksByPreferredLanguages Sample.languages 1%positive "French, English"
     {[ 1%positive := [Sample.german; Cases.polyglot] ]}).1 !! 1%positive
  = Some [Sample.german; Cases.polyglot]
  /\ weightOf (languageWeights Sample.languages "French, English") "english"
     = JS.number 1.
Proof. split; reflexivity. Qed.

Example file_name_with_year :
  fileNameFromBookEntry Sample.bilingual = "Roe, R - Livre (2001)".
Proof. reflexivity. Qed.

Example file_name_with_extension :
  fileNameWithExtensionFromBookEntry Sample.english = "Doe, J - Book.pdf".
Proof. reflexivity. Qed.

Example third_name :
  buildFileName Sample.join Sample.onDisk 10 "/downloads" "Doe, J - Book" "pdf"
  = Some "Doe, J - Book-3.pdf".
Proof. reflexivity. Qed.

(** The runs of the two operations in the sample world. *)
Example expired_certificate_run :
  downloadBookToDefaultDirectory Sample.join Sample.world 5
    "https://example.org/1" Sample.english
  = ([Progress "Downloading..." true;
      Fetch "https://example.org/1" true;
      Failure "Download Failed" (OtherError certificateExpiredMessage)],
     Returns tt).
Proof. reflexivity. Qed.

Example chosen_folder_run :
  downloadBookToLocation Sample.join Sample.mac 5
    "https://example.org/1" Sample.english
  = ([FolderDialog "darwin";
      Progress "Downloading..." true;
      Fetch "https://example.org/1" false;
      WriteFile "/Users/doe/Books/Doe, J - Book.pdf" "%PDF-1.7";
      Success "Saved to Doe, J - Book.pdf"
        "/Users/doe/Books/Doe, J - Book.pdf" "/Users/doe/Books/Doe, J - Book.pdf"],
     Returns tt).
Proof. reflexivity. Qed.

(** ** Weight tables *)

(** C1, as stated, fails on a list that repeats a token: in the list of the
    format preference ["pdf, epub, pdf"], of length 3, the token at position
    0 is ["pdf"], and its weight is the one of its last position, 1, not
    [3 - 0]; positions 0 and 2 share that weight. *)
Lemma repeated_token_keeps_last_weight :
  preferredFormatList "pdf, epub, pdf" = ["pdf"; "epub"; "pdf"]
  /\ ["pdf"; "epub"; "pdf"] !! 0%nat = Some "pdf"
  /\ weightOf (assignWeights ["pdf"; "epub"; "pdf"]) "pdf" = JS.number 1
  /\ weightOf (formatWeights "pdf, epub, pdf") "pdf" = JS.number 1
  /\ weightOf (formatWeights "pdf, epub, pdf") "pdf"
     <> JS.number (Z.of_nat (length (preferredFormatList "pdf, epub, pdf"))
                   - Z.of_nat 0).
Proof. vm_compute. repeat split; congruence. Qed.

Lemma weight_table_by_position_witness :
  weightOf (formatWeights "epub, pdf") "epub" = JS.number 2
  /\ weightOf (formatWeights "epub, pdf") "pdf" = JS.number 1
  /\ weightOf (formatWeights "epub, pdf") "mobi" = JS.number 0
  /\ weightOf (languageWeights [mkLanguage "English"; mkLanguage "French"]
                 "Klingon, french, English") "english" = JS.number 1.
Proof.
  pose proof (weight_table_by_position [] "epub, pdf"
                (parseLowerCaseArray "epub, pdf") (formatWeights "epub, pdf")
                (or_introl (conj eq_refl eq_refl))) as (Hpos & _ & _ & Habs & _ & _).
  pose proof (weight_table_by_position
                [mkLanguage "English"; mkLanguage "French"]
                "Klingon, french, English"
                (filter (λ pl, pl ∈ supportedNames
                                 [mkLanguage "English"; mkLanguage "French"])
                   (parseLowerCaseArray "Klingon, french, English"))
                (languageWeights [mkLanguage "English"; mkLanguage "French"]
                   "Klingon, french, English")
                (or_intror (conj eq_refl eq_refl))) as (Hlang & _).
  split; [|split; [|split]].
  - rewrite (Hpos 0%nat "epub"); [reflexivity|reflexivity|by_computation..].
  - rewrite (Hpos 1%nat "pdf"); [reflexivity|reflexivity|by_computation..].
  - apply (Habs "mobi"); by_computation.
  - rewrite (Hlang 1%nat "english"); [reflexivity|reflexivity|by_computation..].
Defined.

(** ** The rankers *)

Lemma shelf_is_plain :
  Forall plainLanguages Sample.shelf /\ Forall plainExtension Sample.shelf.
Proof. split; by_computation. Defined.

Lemma ranking_in_place_witness :
  Sample.σ !! 1%positive = Some Sample.shelf
  /\ (sortBooksByPreferredLanguages Sample.languages 1%positive
        "French, English" Sample.σ).2 = 1%positive
  /\ (sortBooksByPreferredFileFormats 1%positive "epub, pdf" Sample.σ).2 = 1%positive.
Proof.
  pose proof (ranking_in_place Sample.languages 1%positive "French, English"
                Sample.σ Sample.shelf eq_refl) as ((Hl & _) & _).
  pose proof (ranking_in_place Sample.languages 1%positive "epub, pdf"
                Sample.σ Sample.shelf eq_refl) as (_ & Hf & _).
  split; [reflexivity|]. by split.
Defined.

Lemma ranking_is_stable_on_plain_tokens_witness :
  Sample.σ !! 1%positive = Some Sample.shelf
  /\ Forall plainLanguages Sample.shelf
  /\ Forall plainExtension Sample.shelf
  /\ (sortBooksByPreferredLanguages Sample.languages 1%positive "" Sample.σ).1
     = Sample.σ
  /\ (sortBooksByPreferredFileFormats 1%positive "" Sample.σ).1 = Sample.σ.
Proof.
  destruct shelf_is_plain as [HL HF].
  pose proof (ranking_is_stable_on_plain_tokens Sample.languages 1%positive "French"
                Sample.σ Sample.shelf eq_refl HL HF)
    as (_ & _ & _ & Hlanguages & Hformats).
  split; [reflexivity|]. by repeat split.
Defined.

Lemma ranked_by_descending_score_witness :
  Sample.σ !! 1%positive = Some Sample.shelf
  /\ exists out,
       (sortBooksByPreferredFileFormats 1%positive "epub, pdf" Sample.σ).1
         !! 1%positive = Some out
       /\ descending (formatWeight (formatWeights "epub, pdf")) out
       /\ forall a b, before a b out ->
            exists x y,
              formatScore (formatWeights "epub, pdf") a = JS.number x
              /\ formatScore (formatWeights "epub, pdf") b = JS.number y
              /\ y <= x.
Proof.
  destruct shelf_is_plain as [HL HF].
  split; [reflexivity|].
  exact (proj2 (ranked_by_descending_score Sample.languages 1%positive "epub, pdf"
                  Sample.σ Sample.shelf eq_refl HL HF)).
Defined.

Lemma ranking_twice_is_ranking_once_witness :
  Sample.σ !! 1%positive = Some Sample.shelf
  /\ (sortBooksByPreferredFileFormats
        (sortBooksByPreferredFileFormats 1%positive "epub, pdf" Sample.σ).2
        "epub, pdf"
        (sortBooksByPreferredFileFormats 1%positive "epub, pdf" Sample.σ).1).1
     = (sortBooksByPreferredFileFormats 1%positive "epub, pdf" Sample.σ).1.
Proof.
  destruct shelf_is_plain as [HL HF].
  split; [reflexivity|].
  exact (proj2 (ranking_twice_is_ranking_once Sample.languages 1%positive
                  "epub, pdf" Sample.σ Sample.shelf eq_refl HL HF)).
Defined.

Lemma format_ranking_after_language_ranking_witness :
  Sample.σ !! 1%positive = Some Sample.shelf
  /\ exists out,
       (sortBooksByPreferredFileFormats
          (sortBooksByPreferredLanguages Sample.languages 1%positive "French" Sample.σ).2
          "pdf"
          (sortBooksByPreferredLanguages Sample.languages 1%positive "French" Sample.σ).1).1
         !! 1%positive = Some out
       /\ Permutation Sample.shelf out
       /\ descending (formatWeight (formatWeights "pdf")) out.
Proof.
  destruct shelf_is_plain as [HL HF].
  split; [reflexivity|].
  destruct (format_ranking_after_language_ranking Sample.languages 1%positive
              "French" "pdf" Sample.σ Sample.shelf eq_refl HL HF)
    as (out & Hout & Hperm & _ & Hdesc & _).
  by exists out.
Defined.

Lemma preferred_formats_come_first_witness :
  (sortBooksByPreferredFileFormats 1%positive "epub, pdf" Sample.σ).1 !! 1%positive
  = Some [Sample.german; Sample.english; Sample.bilingual]
  /\ before Sample.german Sample.english
       [Sample.german; Sample.english; Sample.bilingual]
  /\ (cleanExtension Sample.english ∈ preferredFormatList "epub, pdf" ->
      cleanExtension Sample.german ∈ preferredFormatList "epub, pdf").
Proof.
  assert (before Sample.german Sample.english
            [Sample.german; Sample.english; Sample.bilingual]) as Hbefore.
  { by exists [], [], [Sample.bilingual]. }
  assert (Forall plainExtension [Sample.german; Sample.english; Sample.bilingual])
    as Hplain by by_computation.
  split; [reflexivity|]. split; [exact Hbefore|].
  exact (proj1 (preferred_formats_come_first 1%positive "epub, pdf" Sample.σ
                  [Sample.german; Sample.english; Sample.bilingual]
                  Sample.english Sample.german eq_refl Hplain Hbefore)).
Defined.

Lemma preferred_languages_come_first_witness :
  (sortBooksByPreferredLanguages Sample.languages 1%positive "German" Sample.σ).1
    !! 1%positive
  = Some [Sample.german; Sample.english; Sample.bilingual]
  /\ before Sample.german Sample.english
       [Sample.german; Sample.english; Sample.bilingual]
  /\ ((exists t, t ∈ parseLowerCaseArray (language Sample.english)
                 /\ t ∈ filteredPreferredLanguageList Sample.languages "German") ->
      exists t, t ∈ parseLowerCaseArray (language Sample.german)
                /\ t ∈ filteredPreferredLanguageList Sample.languages "German").
Proof.
  assert (before Sample.german Sample.english
            [Sample.german; Sample.english; Sample.bilingual]) as Hbefore.
  { by exists [], [], [Sample.bilingual]. }
  assert (Forall plainLanguages [Sample.german; Sample.english; Sample.bilingual])
    as Hplain by by_computation.
  split; [reflexivity|]. split; [exact Hbefore|].
  exact (preferred_languages_come_first Sample.languages 1%positive "German" Sample.σ
           [Sample.german; Sample.english; Sample.bilingual]
           Sample.english Sample.german eq_refl Hplain Hbefore).
Defined.

Lemma unsupported_preferences_rank_nothing_witness :
  (forall t, (t ∈ parseLowerCaseArray "Klingon, Elvish") ->
             t ∉ supportedNames Sample.languages)
  /\ Sample.σ !! 1%positive = Some Sample.shelf
  /\ (sortBooksByPreferredLanguages Sample.languages 1%positive
        "Klingon, Elvish" Sample.σ).1 = Sample.σ.
Proof.
  assert (forall t, (t ∈ parseLowerCaseArray "Klingon, Elvish") ->
                    t ∉ supportedNames Sample.languages) as Hnone.
  { intros t Ht.
    change (parseLowerCaseArray "Klingon, Elvish") with ["klingon"; "elvish"] in Ht.
    apply elem_of_cons in Ht as [->|Ht]; [by_computation|].
    apply elem_of_cons in Ht as [->|Ht]; [by_computation|].
    by apply elem_of_nil in Ht. }
  destruct shelf_is_plain as [HL _].
  split; [exact Hnone|]. split; [reflexivity|].
  exact (proj2 (proj2 (unsupported_preferences_rank_nothing Sample.languages
                         1%positive "Klingon, Elvish" Sample.σ Sample.shelf
                         Hnone eq_refl HL))).
Defined.

Lemma one_more_preferred_language_ranks_higher_witness :
  (sortBooksByPreferredLanguages Sample.languages 1%positive "French, English"
     Sample.σ).1 !! 1%positive
  = Some [Sample.bilingual; Sample.english; Sample.german]
  /\ "french" ∈ filteredPreferredLanguageList Sample.languages "French, English"
  /\ ~ before Sample.english Sample.bilingual
         [Sample.bilingual; Sample.english; Sample.german].
Proof.
  assert ("french" ∈ filteredPreferredLanguageList Sample.languages "French, English")
    as Ht by by_computation.
  assert (Forall plainLanguages [Sample.bilingual; Sample.english; Sample.german])
    as Hplain by by_computation.
  assert (plainLanguages Sample.bilingual) as Ha by by_computation.
  split; [reflexivity|]. split; [exact Ht|].
  exact (proj2 (one_more_preferred_language_ranks_higher Sample.languages
                  1%positive "French, English" Sample.σ
                  [Sample.bilingual; Sample.english; Sample.german]
                  Sample.bilingual Sample.english "french"
                  eq_refl Hplain Ha (Permutation_refl _) Ht)).
Defined.

Lemma language_ranking_sums_plain_weights_witness :
  "french" ∈ supportedNames Sample.languages
  /\ "english" ∈ supportedNames Sample.languages
  /\ (sortBooksByPreferredLanguages Sample.languages 1%positive
        "French, English" Sample.σ).1 !! 1%positive
     = Some [Sample.bilingual; Sample.english; Sample.german].
Proof.
  assert ("french" ∈ supportedNames Sample.languages) as Hfr by by_computation.
  assert ("english" ∈ supportedNames Sample.languages) as Hen by by_computation.
  split; [exact Hfr|]. split; [exact Hen|].
  apply (language_ranking_sums_plain_weights Sample.languages 1%positive Sample.σ
           Sample.english Sample.bilingual Sample.german Hfr Hen
           eq_refl eq_refl eq_refl eq_refl).
Defined.


(** ** File names *)

(** C4, as stated, fails on a backslash: the author ["A\B"] gives the name
    ["A\B - C"], and the backslash separates path segments on [win32]. *)
Lemma backslash_stays_in_file_name :
  fileNameFromBookEntry (mkBook "C" "A\B" "" "" "" "") = "A\B - C"
  /\ exists c, c ∈ chars (fileNameFromBookEntry (mkBook "C" "A\B" "" "" "" ""))
               /\ pathSeparator c = true.
Proof.
  split; [reflexivity|]. exists "\"%char. split; [|reflexivity].
  by_computation.
Qed.

Lemma buildFileName_first_unused_witness :
  firstUnused Sample.join Sample.onDisk "/downloads" "Doe, J - Book" "pdf" 2
  /\ buildFileName Sample.join Sample.onDisk 2 "/downloads" "Doe, J - Book" "pdf"
     = Some "Doe, J - Book-3.pdf".
Proof.
  assert (firstUnused Sample.join Sample.onDisk "/downloads" "Doe, J - Book" "pdf" 2)
    as Hfirst.
  { split; [reflexivity|]. intros [|[|j]] Hj; [reflexivity..|lia]. }
  split; [exact Hfirst|].
  assert (2 <= 2)%nat as Hfuel by lia.
  exact (proj1 (buildFileName_first_unused Sample.join Sample.onDisk "/downloads"
                  "Doe, J - Book" "pdf" 2 2 Hfirst Hfuel)).
Defined.

Lemma buildFileName_terminates_witness :
  unused Sample.join Sample.onDisk "/downloads" "Doe, J - Book" "pdf" 5
  /\ exists fuel k,
       firstUnused Sample.join Sample.onDisk "/downloads" "Doe, J - Book" "pdf" k
       /\ forall fuel', (fuel <= fuel')%nat ->
            buildFileName Sample.join Sample.onDisk fuel' "/downloads"
              "Doe, J - Book" "pdf"
            = Some (probeOrder "Doe, J - Book" "pdf" k).
Proof.
  split; [reflexivity|].
  apply (buildFileName_terminates Sample.join Sample.onDisk "/downloads"
           "Doe, J - Book" "pdf").
  exists 5%nat. reflexivity.
Defined.

Lemma buildFileName_returns_unused_name_witness :
  buildFileName Sample.join Sample.onDisk 7 "/downloads" "Doe, J - Book" "pdf"
  = Some "Doe, J - Book-3.pdf"
  /\ Sample.onDisk (Sample.join "/downloads" "Doe, J - Book-3.pdf") = false.
Proof.
  split; [reflexivity|].
  exact (proj1 (buildFileName_returns_unused_name Sample.join Sample.onDisk
                  "/downloads" "Doe, J - Book" "pdf" 7 "Doe, J - Book-3.pdf" eq_refl)).
Defined.

(** ** Downloads *)

Lemma no_folder_no_download_witness :
  chooseDownloadFolder Sample.world = ([], Returns None)
  /\ downloadBookToLocation Sample.join Sample.world 5
       "https://example.org/1" Sample.english = ([], Returns tt).
Proof.
  split; [reflexivity|].
  apply (no_folder_no_download Sample.join Sample.world 5 "https://example.org/1"
           Sample.english [] None); reflexivity.
Defined.

Lemma no_dialog_no_download_witness :
  platform Cases.library ≠ "darwin"
  /\ platform Cases.library ≠ "win32"
  /\ downloadBookToLocation Sample.join Cases.library 3
       "https://example.org/1" Sample.english = ([], Returns tt).
Proof.
  assert (platform Cases.library ≠ "darwin") as Hd by by_computation.
  assert (platform Cases.library ≠ "win32") as Hw by by_computation.
  split; [exact Hd|]. split; [exact Hw|].
  exact (no_dialog_no_download Sample.join Cases.library 3
           "https://example.org/1" Sample.english Hd Hw).
Defined.

Lemma default_directory_download_succeeds_witness :
  buildFileName Sample.join (existsSync Cases.library) 4 (downloadPath Cases.library)
    (fileNameFromBookEntry Sample.english) (JS.toLowerCase (extension Sample.english))
  = Some "Doe, J - Book-3.pdf"
  /\ downloadBookToDefaultDirectory Sample.join Cases.library 4
       "https://example.org/1" Sample.english
     = ([Progress "Downloading..." true;
         Fetch "https://example.org/1" true;
         WriteFile "/downloads/Doe, J - Book-3.pdf" "%PDF-1.7";
         Success "Saved to /downloads"
           "/downloads/Doe, J - Book-3.pdf" "/downloads/Doe, J - Book-3.pdf"],
        Returns tt).
Proof.
  split; [reflexivity|].
  exact (default_directory_download_succeeds Sample.join Cases.library 4
           "https://example.org/1" Sample.english "Doe, J - Book-3.pdf"
           (mkResponse (inr "%PDF-1.7")) "%PDF-1.7"
           eq_refl eq_refl eq_refl eq_refl).
Defined.

Lemma location_download_succeeds_witness :
  chooseDownloadFolder Cases.windows
  = ([FolderDialog "win32"], Returns (Some "D:\Books"))
  /\ downloadBookToLocation Sample.join Cases.windows 0
       "https://example.org/1" Sample.english
     = ([FolderDialog "win32";
         Progress "Downloading..." true;
         Fetch "https://example.org/1" true;
         WriteFile "D:\Books/Doe, J - Book.pdf" "%PDF-1.7";
         Success "Saved to Doe, J - Book.pdf"
           "D:\Books/Doe, J - Book.pdf" "D:\Books/Doe, J - Book.pdf"],
        Returns tt).
Proof.
  assert ("D:\Books" ≠ "") as Hne by by_computation.
  split; [reflexivity|].
  exact (location_download_succeeds Sample.join Cases.windows 0
           "https://example.org/1" Sample.english [FolderDialog "win32"]
           "D:\Books" "Doe, J - Book.pdf" (mkResponse (inr "%PDF-1.7")) "%PDF-1.7"
           eq_refl Hne eq_refl eq_refl eq_refl eq_refl).
Defined.

Lemma default_directory_writes_fetched_body_witness :
  WriteFile "/downloads/Doe, J - Book-3.pdf" "%PDF-1.7"
    ∈ (downloadBookToDefaultDirectory Sample.join Cases.library 4
         "https://example.org/1" Sample.english).1
  /\ exists fileName res,
       buildFileName Sample.join (existsSync Cases.library) 4
         (downloadPath Cases.library) (fileNameFromBookEntry Sample.english)
         (JS.toLowerCase (extension Sample.english)) = Some fileName
       /\ "/downloads/Doe, J - Book-3.pdf" = downloadPath Cases.library +:+ "/" +:+ fileName
       /\ existsSync Cases.library (Sample.join (downloadPath Cases.library) fileName)
          = false
       /\ fetch Cases.library "https://example.org/1"
            (negb (allowIgnoreHTTPSErrors Cases.library)) = inr res
       /\ arrayBuffer res = inr "%PDF-1.7".
Proof.
  assert (WriteFile "/downloads/Doe, J - Book-3.pdf" "%PDF-1.7"
            ∈ (downloadBookToDefaultDirectory Sample.join Cases.library 4
                 "https://example.org/1" Sample.english).1) as Hin.
  { vm_compute. do 2 right. left. }
  split; [exact Hin|].
  exact (default_directory_writes_fetched_body Sample.join Cases.library 4
           "https://example.org/1" Sample.english _ _ Hin).
Defined.

Lemma location_download_writes_probed_path_witness :
  WriteFile "D:\Books/Doe, J - Book.pdf" "%PDF-1.7"
    ∈ (downloadBookToLocation Sample.join Cases.windows 0
         "https://example.org/1" Sample.english).1
  /\ existsSync Cases.windows "D:\Books/Doe, J - Book.pdf" = false.
Proof.
  assert (WriteFile "D:\Books/Doe, J - Book.pdf" "%PDF-1.7"
            ∈ (downloadBookToLocation Sample.join Cases.windows 0
                 "https://example.org/1" Sample.english).1) as Hin.
  { vm_compute. do 3 right. left. }
  split; [exact Hin|].
  exact (proj1 (location_download_writes_probed_path Sample.join Cases.windows 0
                  "https://example.org/1" Sample.english _ _ Hin)).
Defined.

Lemma full_directory_hangs_the_download_witness :
  (forall k, existsSync Cases.full
               (Sample.join (downloadPath Cases.full)
                  (probeOrder (fileNameFromBookEntry Sample.english)
                     (JS.toLowerCase (extension Sample.english)) k)) = true)
  /\ downloadBookToDefaultDirectory Sample.join Cases.full 1000
       "https://example.org/1" Sample.english
     = ([Progress "Downloading..." true], Running).
Proof.
  assert (forall k, existsSync Cases.full
               (Sample.join (downloadPath Cases.full)
                  (probeOrder (fileNameFromBookEntry Sample.english)
                     (JS.toLowerCase (extension Sample.english)) k)) = true)
    as Hused by (intros k; reflexivity).
  split; [exact Hused|].
  exact (full_directory_hangs_the_download Sample.join Cases.full 1000
           "https://example.org/1" Sample.english Hused).
Defined.
